(** * CPI calculator: a shallow embedding of [src/cpi_calculator/calculator.py]

    The development follows [CPICalculator]: the ClickHouse client and its
    queries, the pandas pipeline of [compute_daily_cpi] (pivot, forward fill,
    merges, group-by) and [compute_cpi] with the statement it sends.

    Numbers.  A float column is modelled over the real numbers: a cell is
    [option R], where [None] is pandas' NaN / SQL's NULL (a missing value).
    The special values that [log] produces from a finite argument
    (minus infinity at 0, NaN below 0) are kept in the type [f64].
    Rounding error and overflow of IEEE arithmetic are not modelled. *)

From Stdlib Require Import Reals Lra Lia ZArith List Bool Permutation Sorted.
Import ListNotations.

Open Scope Z_scope.

(** ** Exceptions and results *)

Definition date := Z.

(** The exceptions [compute_daily_cpi] can meet: whatever
    [clickhouse_client.execute] raises, and the [KeyError] of a column
    selection [price_pivot[d]] on a label that is not a column. *)
Inductive exn : Type :=
| QueryError (code : Z)
| KeyError (d : date).

Inductive result (A : Type) : Type :=
| Ok (a : A)
| Raise (e : exn).

Arguments Ok {A} a.
Arguments Raise {A} e.

Definition bind {A B} (m : result A) (k : A -> result B) : result B :=
  match m with
  | Ok a => k a
  | Raise e => Raise e
  end.

Notation "x <- m ;; k" := (bind m (fun x => k))
  (at level 61, m at next level, right associativity).

(** A [for] loop that builds one value per element and stops at the first
    exception. *)
Fixpoint for_each {A B} (f : A -> result B) (l : list A) : result (list B) :=
  match l with
  | [] => Ok []
  | a :: t => b <- f a ;; bs <- for_each f t ;; Ok (b :: bs)
  end.

(** ** Tables *)

(** [categories(category_id, parent, weight)]; [parent] may be null
    ([dropna] in the source), the root sentinel is [-1]. *)
Record category : Type := mkCategory {
  category_id : Z;
  parent : option Z;
  weight : R
}.

(** [products(product_id, category_id)]. *)
Record product : Type := mkProduct {
  product_id : Z;
  product_category : Z
}.

(** [prices(product_id, price, date)]; a price may be missing. *)
Record price_row : Type := mkPrice {
  price_product : Z;
  price : option R;
  price_date : date
}.

(** ** Floating point values *)

(** The value of [log] at a finite argument. *)
Inductive f64 : Type :=
| Fin (r : R)
| NegInf
| NaN.

Definition Rgtb (x y : R) : bool := if Rlt_dec y x then true else false.

(** [np.log] and ClickHouse's [log]: [-inf] at 0, NaN below 0. *)
Definition np_log (x : R) : f64 :=
  if Rlt_dec 0 x then Fin (ln x)
  else if Rlt_dec x 0 then NaN else NegInf.

(** [np.exp] on the values a mean of logs can take; [None] is NaN. *)
Definition np_exp (x : f64) : option R :=
  match x with
  | Fin r => Some (exp r)
  | NegInf => Some 0%R
  | NaN => None
  end.

Definition is_nan (x : f64) : bool :=
  match x with NaN => true | _ => false end.

Definition is_neginf (x : f64) : bool :=
  match x with NegInf => true | _ => false end.

Definition fin_part (x : f64) : R :=
  match x with Fin r => r | _ => 0%R end.

Definition Rsum (l : list R) : R := fold_right Rplus 0%R l.

(** The arithmetic mean of a non-empty list without NaN: [-inf] as soon
    as one term is, the real mean otherwise. *)
Definition mean_values (l : list f64) : f64 :=
  if existsb is_neginf l then NegInf
  else Fin (Rsum (map fin_part l) / INR (length l)).

(** pandas' [GroupBy.mean]: NaN terms are skipped; NaN when nothing is left. *)
Definition nanmean (l : list f64) : f64 :=
  match filter (fun x => negb (is_nan x)) l with
  | [] => NaN
  | v :: vs => mean_values (v :: vs)
  end.

(** pandas' [Series.sum]: NaN terms are skipped, the empty sum is 0. *)
Fixpoint nansum (l : list (option R)) : R :=
  match l with
  | [] => 0%R
  | Some r :: t => (r + nansum t)%R
  | None :: t => nansum t
  end.

(** The term a cell adds to a sum that skips NaN. *)
Definition value_of (x : option R) : R :=
  match x with Some r => r | None => 0%R end.

Definition fmul (x : option R) (w : R) : option R :=
  match x with
  | Some r => Some (r * w)%R
  | None => None
  end.

(** Round half to even, the rounding of [numpy.rint]. *)
Definition rint (x : R) : Z :=
  let f := Int_part x in
  let d := (x - IZR f)%R in
  if Rlt_dec d (1 / 2) then f
  else if Rlt_dec (1 / 2) d then f + 1
  else if Z.even f then f else f + 1.

(** [Series.round(4)]. *)
Definition round4 (x : R) : R := (IZR (rint (x * 10000)) / 10000)%R.

(** A float cell: [None] is NaN (pandas) or NULL (SQL). *)
Definition float := option R.

Definition notnull (x : float) : bool :=
  match x with Some _ => true | None => false end.

(** [x > 0] on a float cell; false on NaN and on NULL. *)
Definition gt0 (x : float) : bool :=
  match x with Some r => Rgtb r 0 | None => false end.

(** ** Sorting without duplicates

    The labels of a pivot table and the keys of a group-by come out sorted
    and distinct. *)
Fixpoint insert_uniq (x : Z) (l : list Z) : list Z :=
  match l with
  | [] => [x]
  | y :: t =>
      if x <? y then x :: l
      else if x =? y then l
      else y :: insert_uniq x t
  end.

Definition sort_uniq (l : list Z) : list Z := fold_right insert_uniq [] l.

Definition isin (x : Z) (l : list Z) : bool := existsb (Z.eqb x) l.

(** An inner [merge]: every left row with every right row of the same key,
    in the order of the left rows. *)
Definition merge {A B C} (key_l : A -> Z) (key_r : B -> Z) (mk : A -> B -> C)
    (left : list A) (right : list B) : list C :=
  flat_map (fun a => map (mk a) (filter (fun b => key_r b =? key_l a) right)) left.

(** ** The ClickHouse client *)

(** The four query texts of the class, with the type of their rows. *)
Inductive query : Type -> Type :=
| SelectCategories : query (list category)
| SelectProducts : query (list product)
| SelectPrices (dates : list date) : query (list price_row)
| SelectCPI (start_date end_date : date) : query (list (option float)).

(** The server: its three tables, and for each query whether executing it
    raises. *)
Record Client : Type := mkClient {
  tbl_categories : list category;
  tbl_products : list product;
  tbl_prices : list price_row;
  fault : forall A, query A -> option exn
}.

Module Sql.

(** [SELECT product_id, price, toDate(date) AS date FROM prices
     WHERE date IN (dates)]. *)
Definition select_prices (prices : list price_row) (dates : list date)
    : list price_row :=
  filter (fun r => isin (price_date r) dates) prices.

(** [SELECT parent FROM categories WHERE parent != -1]; a NULL parent
    fails the comparison. *)
Definition parents (cats : list category) : list Z :=
  flat_map (fun c => match parent c with
                     | Some p => if p =? -1 then [] else [p]
                     | None => []
                     end) cats.

(** The CTE [leaf_categories]. *)
Definition leaf_categories (cats : list category) : list category :=
  filter (fun c => negb (isin (category_id c) (parents cats))) cats.

(** Modelled from the spec: the schema of table [prices] is not in the
    repository.  The spec's data model says a price "may be missing for a
    given date", and the query tests [report_price IS NOT NULL], so the
    column is taken as nullable: [MAXIf] skips NULL prices and is NULL when
    no row of the group satisfies the condition. *)
Fixpoint maxIf (cond : price_row -> bool) (l : list price_row) : float :=
  match l with
  | [] => None
  | r :: t =>
      if cond r then
        match price r, maxIf cond t with
        | Some x, Some m => Some (Rmax x m)
        | Some x, None => Some x
        | None, m => m
        end
      else maxIf cond t
  end.

Record price_data_row : Type := mkPriceData {
  pd_product_id : Z;
  pd_base_price : float;
  pd_report_price : float
}.

(** The CTE [price_data]: one row per product having a row on one of the
    two dates. *)
Definition price_data (prices : list price_row) (start_date end_date : date)
    : list price_data_row :=
  let rows := select_prices prices [start_date; end_date] in
  map (fun p =>
         let g := filter (fun r => price_product r =? p) rows in
         mkPriceData p
           (maxIf (fun r => price_date r =? start_date) g)
           (maxIf (fun r => price_date r =? end_date) g))
      (sort_uniq (map price_product rows)).

End Sql.

(** What the server answers to a statement when nothing else fails.  The
    three [SELECT]s over one table return their rows.  The statement of
    [compute_cpi] is rejected: its CTE [category_cpi] projects
    [p.category_id] (calculator.py, line 86) and its final [SELECT] joins on
    [cc.category_id] (line 97), a column that CTE does not have, so the
    server raises UNKNOWN_IDENTIFIER (code 47) before it reads any row. *)
Definition eval (cl : Client) {A} (q : query A) : result A :=
  match q in query T return result T with
  | SelectCategories => Ok (tbl_categories cl)
  | SelectProducts => Ok (tbl_products cl)
  | SelectPrices dates => Ok (Sql.select_prices (tbl_prices cl) dates)
  | SelectCPI _ _ => Raise (QueryError 47)
  end.

(** [clickhouse_client.execute(query)]. *)
Definition execute (cl : Client) {A} (q : query A) : result A :=
  match fault cl A q with
  | Some e => Raise e
  | None => eval cl q
  end.

(** ** The calculator object *)

Record CPICalculator : Type := mkCalculator {
  clickhouse_client : Client;
  categories : list category;
  products : list product
}.

Definition _execute_clickhouse_query (self : Client) {A} (q : query A)
    : result A :=
  execute self q.

Definition _load_categories (cl : Client) : result (list category) :=
  _execute_clickhouse_query cl SelectCategories.

Definition _load_products (cl : Client) : result (list product) :=
  _execute_clickhouse_query cl SelectProducts.

(** [__init__], from the client that [_connect_clickhouse] returns: the two
    tables are loaded once.  The set-up of lines 18 to 20 (building the
    client, the SQLAlchemy engine and the session factory) is not part of
    this model: [init] describes a construction whose set-up has gone
    through, and says nothing of one in which the set-up raises. *)
Definition init (cl : Client) : result CPICalculator :=
  cats <- _load_categories cl ;;
  prods <- _load_products cl ;;
  Ok (mkCalculator cl cats prods).

Definition _load_prices_for_dates (self : CPICalculator) (date_tuple : list date)
    : result (list price_row) :=
  _execute_clickhouse_query (clickhouse_client self) (SelectPrices date_tuple).

(** ** [compute_cpi] *)

(** The lines printed: by [compute_cpi] in its [except] branch (the failure
    message followed by the exception), and by [run] (start, report
    announcement, the series, the path of the saved chart, success, abort). *)
Inductive line : Type :=
| CpiSqlFailed (e : exn)
| Started
| Reporting
| Printed (cpi_series : list (date * R))
| ChartSaved
| Succeeded
| Aborted.

(** The value returned, with the lines printed.  [result[0][0] if result
    else None]; every exception of the query is caught. *)
Definition compute_cpi (self : CPICalculator) (start_date end_date : date)
    : option float * list line :=
  match _execute_clickhouse_query (clickhouse_client self)
          (SelectCPI start_date end_date) with
  | Ok [] => (None, [])
  | Ok (row :: _) => (row, [])
  | Raise e => (None, [CpiSqlFailed e])
  end.

(** ** The pandas pipeline of [compute_daily_cpi] *)

(** [pd.date_range(start_date, end_date, freq='D').date]. *)
Definition date_range (start_date end_date : date) : list date :=
  map (fun i => start_date + Z.of_nat i)
      (seq 0 (Z.to_nat (end_date - start_date + 1))).

(** A frame indexed by product with one float column per date. *)
Record frame : Type := mkFrame {
  columns : list date;
  rows : list (Z * list float)
}.

(** A series indexed by product. *)
Definition series := list (Z * float).

(** [aggfunc='first']: the first non-null price of the rows of a
    (product, date) group. *)
Fixpoint first_price (data : list price_row) (p : Z) (d : date) : float :=
  match data with
  | [] => None
  | r :: t =>
      if (price_product r =? p) && (price_date r =? d) then
        match price r with
        | Some x => Some x
        | None => first_price t p d
        end
      else first_price t p d
  end.

(** [pivot_table(index='product_id', columns='date', values='price',
    aggfunc='first')]: groups whose aggregate is NaN are dropped before
    unstacking, so a label exists only for a product or date with at least
    one non-null price; labels are sorted. *)
Definition pivot_table (data : list price_row) : frame :=
  let observed := filter (fun r => notnull (price r)) data in
  let cols := sort_uniq (map price_date observed) in
  mkFrame cols
    (map (fun p => (p, map (first_price data p) cols))
         (sort_uniq (map price_product observed))).

(** Forward fill of one row, carrying the last non-null value. *)
Fixpoint ffill_from (last : float) (l : list float) : list float :=
  match l with
  | [] => []
  | x :: t =>
      let v := match x with Some _ => x | None => last end in
      v :: ffill_from v t
  end.

(** [.ffill(axis=1)]. *)
Definition ffill (df : frame) : frame :=
  mkFrame (columns df)
          (map (fun r => (fst r, ffill_from None (snd r))) (rows df)).

(** The cell of a row under column label [d]. *)
Fixpoint cell (cols : list date) (vals : list float) (d : date) : float :=
  match cols, vals with
  | c :: cs, v :: vs => if c =? d then v else cell cs vs d
  | _, _ => None
  end.

(** The row labels of a frame. *)
Definition index (df : frame) : list Z := map fst (rows df).

Definition column_of (df : frame) (d : date) : series :=
  map (fun r => (fst r, cell (columns df) (snd r) d)) (rows df).

(** [df[d]]: a [KeyError] when [d] is not a column label. *)
Definition getitem (df : frame) (d : date) : result series :=
  if isin d (columns df) then Ok (column_of df d) else Raise (KeyError d).

(** A row of [merged_data]. *)
Record merged_row : Type := mkMerged {
  m_product_id : Z;
  m_category_id : Z;
  base_price : float;
  m_weight : R
}.

(** A row of [daily_data]. *)
Record daily_row : Type := mkDaily {
  d_merged : merged_row;
  current_price : float
}.

(** [categories[~categories['category_id'].isin(categories['parent'].dropna())]]. *)
Definition dropna (l : list (option Z)) : list Z :=
  flat_map (fun x => match x with Some p => [p] | None => [] end) l.

Definition leaf_categories (cats : list category) : list category :=
  filter (fun c => negb (isin (category_id c) (dropna (map parent cats)))) cats.

Definition merged_data (self : CPICalculator) (base_prices : series)
    : list merged_row :=
  merge (fun pb => product_category (fst pb)) category_id
        (fun pb lc => mkMerged (product_id (fst pb)) (product_category (fst pb))
                               (snd (snd pb)) (weight lc))
        (merge product_id fst pair (products self) base_prices)
        (leaf_categories (categories self)).

Definition daily_data (merged : list merged_row) (current_prices : series)
    : list daily_row :=
  merge m_product_id fst (fun m c => mkDaily m (snd c)) merged current_prices.

(** [(daily_data['base_price'] > 0) & (daily_data['current_price'].notnull())]. *)
Definition is_valid (r : daily_row) : bool :=
  gt0 (base_price (d_merged r)) && notnull (current_price r).

Definition valid_data (daily : list daily_row) : list daily_row :=
  filter is_valid daily.

(** [current_price / base_price]; Rocq's division is total, the filter
    above keeps the denominator positive. *)
Definition price_ratio (r : daily_row) : float :=
  match current_price r, base_price (d_merged r) with
  | Some c, Some b => Some (c / b)%R
  | _, _ => None
  end.

Definition log_ratio (r : daily_row) : f64 :=
  match price_ratio r with
  | Some x => np_log x
  | None => NaN
  end.

(** [valid_data.groupby('category_id')['log_ratio'].mean().apply(np.exp)]. *)
Definition category_index (valid : list daily_row) : list (Z * float) :=
  map (fun k =>
         (k, np_exp (nanmean (map log_ratio
               (filter (fun r => m_category_id (d_merged r) =? k) valid)))))
      (sort_uniq (map (fun r => m_category_id (d_merged r)) valid)).

(** [category_index.reset_index(name='price_index').merge(leaf_categories,
    on='category_id')], then [(price_index * weight)]. *)
Definition final_data (index : list (Z * float)) (leaves : list category)
    : list float :=
  merge fst category_id (fun ci lc => fmul (snd ci) (weight lc)) index leaves.

(** The value stored in [cpi_series[current_date]]. *)
Definition daily_cpi (self : CPICalculator) (merged : list merged_row)
    (current_prices : series) : R :=
  nansum (final_data
            (category_index (valid_data (daily_data merged current_prices)))
            (leaf_categories (categories self))).

(** [price_data.pivot_table(...).ffill(axis=1)]. *)
Definition price_pivot (price_data : list price_row) : frame :=
  ffill (pivot_table price_data).

Definition compute_daily_cpi (self : CPICalculator) (start_date end_date : date)
    : result (list (date * R)) :=
  let all_dates := date_range start_date end_date in
  price_data <- _load_prices_for_dates self all_dates ;;
  base_prices <- getitem (price_pivot price_data) start_date ;;
  let merged := merged_data self base_prices in
  cpi_series <-
    for_each (fun current_date =>
                current_prices <- getitem (price_pivot price_data) current_date ;;
                Ok (current_date, daily_cpi self merged current_prices))
             all_dates ;;
  Ok (map (fun dv => (fst dv, round4 (snd dv))) cpi_series).

(** [run], from the client of the settings: the calculator is built, the
    series is computed, printed and plotted; an exception of the
    construction or of the computation is announced and raised again.  The
    loading of the settings and the renderer are not part of this model:
    [run] describes a run in which [settings.from_env] and [plot_cpi_trend]
    go through, and says nothing of a run in which one of them raises. *)
Definition run (cl : Client) (start_date end_date : date)
    : result unit * list line :=
  match (calculator <- init cl ;;
         compute_daily_cpi calculator start_date end_date) with
  | Ok daily_cpi =>
      (Ok tt, [Started; Reporting; Printed daily_cpi; ChartSaved; Succeeded])
  | Raise e => (Raise e, [Started; Aborted])
  end.

(** The rows fetched by [compute_daily_cpi] when the query succeeds. *)
Definition fetched (self : CPICalculator) (start_date end_date : date)
    : list price_row :=
  Sql.select_prices (tbl_prices (clickhouse_client self))
                    (date_range start_date end_date).

(** The frames of the iteration for [current_date]. *)
Definition merged_rows (self : CPICalculator) (start_date end_date : date)
    : list merged_row :=
  merged_data self
    (column_of (price_pivot (fetched self start_date end_date)) start_date).

Definition daily_rows (self : CPICalculator) (start_date end_date : date)
    (current_date : date) : list daily_row :=
  daily_data (merged_rows self start_date end_date)
    (column_of (price_pivot (fetched self start_date end_date)) current_date).

Definition valid_rows (self : CPICalculator) (start_date end_date : date)
    (current_date : date) : list daily_row :=
  valid_data (daily_rows self start_date end_date current_date).

(** The value of [cpi_series[current_date]] before rounding. *)
Definition cpi_value (self : CPICalculator) (start_date end_date : date)
    (current_date : date) : R :=
  daily_cpi self (merged_rows self start_date end_date)
    (column_of (price_pivot (fetched self start_date end_date)) current_date).

(** Some product has a non-null price on [d]. *)
Definition has_prices (prices : list price_row) (d : date) : bool :=
  existsb (fun r => notnull (price r) && (price_date r =? d)) prices.

(** The cell of product [p] under date [d] in the forward-filled pivot. *)
Definition filled (data : list price_row) (p : Z) (d : date) : float :=
  cell (columns (pivot_table data))
       (ffill_from None (map (first_price data p) (columns (pivot_table data))))
       d.

(** * Statements of the specification and sample data *)

(** Row [r] belongs to leaf category [lc]. *)
Definition in_category (lc : category) (r : daily_row) : bool :=
  m_category_id (d_merged r) =? category_id lc.

(** The specification's formula for CPI(T), with the arithmetic of the
    code: the sum, over the leaf categories that have at least one surviving
    row, of [exp(mean(log_ratio))] times the weight of the category. *)
Definition cpi_formula (leaves : list category) (valid : list daily_row) : R :=
  nansum
    (map (fun lc =>
            fmul (np_exp (nanmean (map log_ratio (filter (in_category lc) valid))))
                 (weight lc))
         (filter (fun lc => existsb (in_category lc) valid) leaves)).

(** The same formula over the real numbers, for rows whose prices are all
    positive: the geometric mean of the price relatives of a category is
    [exp] of the arithmetic mean of their logarithms. *)
Definition price_relative (r : daily_row) : R :=
  (value_of (current_price r) / value_of (base_price (d_merged r)))%R.

Definition geometric_mean_index (rows : list daily_row) : R :=
  exp (Rsum (map (fun r => ln (price_relative r)) rows) / INR (length rows)).

Definition cpi_real_formula (leaves : list category) (valid : list daily_row)
    : R :=
  Rsum (map (fun lc =>
               geometric_mean_index (filter (in_category lc) valid) * weight lc)%R
            (filter (fun lc => existsb (in_category lc) valid) leaves)).

(** "Category C is a leaf iff no other category's parent field equals
    C's id", for a way [leaves] of selecting the leaf rows. *)
Definition leaf_iff_no_other_parent
    (leaves : list category -> list category) (cats : list category) : Prop :=
  forall c, In c cats ->
    (In c (leaves cats) <->
     forall c', In c' cats -> c' <> c -> parent c' <> Some (category_id c)).

(** A table whose single category names itself as parent. *)
Definition self_parent_categories : list category :=
  [mkCategory 1 (Some 1) 1].

(** A table where a category carries the sentinel [-1] as its id. *)
Definition sentinel_categories : list category :=
  [mkCategory (-1) None 1; mkCategory 2 (Some (-1)) 1].

Definition no_fault : forall A, query A -> option exn := fun _ _ => None.


(** The scenario of the specification: leaf categories A (id 1, weight 0.6)
    and B (id 2, weight 0.4) under the root sentinel, products P1 (101) in
    A and P2 (102) in B, prices on day 0 and day 1. *)
Definition scenario_categories : list category :=
  [mkCategory 1 (Some (-1)) (6 / 10); mkCategory 2 (Some (-1)) (4 / 10)].

Definition scenario_products : list product :=
  [mkProduct 101 1; mkProduct 102 2].

Definition scenario_prices : list price_row :=
  [mkPrice 101 (Some 10%R) 0; mkPrice 101 (Some 11%R) 1;
   mkPrice 102 (Some 20%R) 0; mkPrice 102 (Some 20%R) 1].

Definition scenario : CPICalculator :=
  mkCalculator
    (mkClient scenario_categories scenario_products scenario_prices no_fault)
    scenario_categories scenario_products.

(** "The most recent observation on a date on or before [d]": the latest
    dated non-null price of product [p] among the rows of the table dated
    [d] or earlier, the first row winning among rows of the same date. *)
Fixpoint latest_observation (prices : list price_row) (p : Z) (d : date)
    (best : option (date * R)) : option (date * R) :=
  match prices with
  | [] => best
  | r :: t =>
      let best' :=
        if (price_product r =? p) && (price_date r <=? d) then
          match price r, best with
          | Some x, Some (bd, _) => if bd <? price_date r
                                    then Some (price_date r, x) else best
          | Some x, None => Some (price_date r, x)
          | None, _ => best
          end
        else best in
      latest_observation t p d best'
  end.

Definition price_on_or_before (prices : list price_row) (p : Z) (d : date)
    : float :=
  option_map snd (latest_observation prices p d None).

(** "The base price is the price on [start], carried forward from the most
    recent available date on or before [start] if missing at [start]". *)
Definition base_price_carried_to_start (self : CPICalculator)
    (start_date end_date : date) : Prop :=
  forall m, In m (merged_rows self start_date end_date) ->
    base_price m =
    price_on_or_before (tbl_prices (clickhouse_client self))
                       (m_product_id m) start_date.

Definition calculator_on (prices : list price_row) : CPICalculator :=
  mkCalculator
    (mkClient scenario_categories scenario_products prices no_fault)
    scenario_categories scenario_products.

(** The scenario with P1 priced the day before day 0 but not on day 0. *)
Definition early_prices : list price_row :=
  [mkPrice 101 (Some 10%R) (-1); mkPrice 101 (Some 11%R) 1;
   mkPrice 102 (Some 20%R) 0; mkPrice 102 (Some 20%R) 1].

(** The scenario over four days, P1 having no price on day 2. *)
Definition gap_prices : list price_row :=
  [mkPrice 101 (Some 10%R) 0; mkPrice 101 (Some 11%R) 1;
   mkPrice 101 (Some 12%R) 3;
   mkPrice 102 (Some 20%R) 0; mkPrice 102 (Some 20%R) 1;
   mkPrice 102 (Some 20%R) 2; mkPrice 102 (Some 20%R) 3].

(** The scenario with a price 0 for P1 on day 0. *)
Definition zero_base_prices : list price_row :=
  [mkPrice 101 (Some 0%R) 0; mkPrice 101 (Some 11%R) 1;
   mkPrice 102 (Some 20%R) 0; mkPrice 102 (Some 20%R) 1].

(** "With leaf weights summing to 1 and a positive price on [start] for
    every product, the first value of the series is 1.0". *)
Definition first_value_is_one (self : CPICalculator)
    (start_date end_date : date) : Prop :=
  Rsum (map weight (leaf_categories (categories self))) = 1%R ->
  (forall p, In p (products self) ->
     gt0 (first_price (tbl_prices (clickhouse_client self))
                      (product_id p) start_date) = true) ->
  exists rest,
    compute_daily_cpi self start_date end_date = Ok ((start_date, 1%R) :: rest).

(** The categories of the scenario with P1 as only product: leaf B has no
    product. *)
Definition one_product : CPICalculator :=
  mkCalculator
    (mkClient scenario_categories [mkProduct 101 1]
              [mkPrice 101 (Some 10%R) 0] no_fault)
    scenario_categories [mkProduct 101 1].


(** A server on which the tables load and the two CPI queries raise
    (210 is the code of a network error of the driver). *)
Definition price_queries_fail : forall A, query A -> option exn :=
  fun _ q =>
    match q with
    | SelectPrices _ => Some (QueryError 210)
    | SelectCPI _ _ => Some (QueryError 210)
    | _ => None
    end.

Definition failing_calculator : CPICalculator :=
  mkCalculator
    (mkClient scenario_categories scenario_products scenario_prices
              price_queries_fail)
    scenario_categories scenario_products.

(** The scenario's server with an empty snapshot of [products]. *)
Definition no_products : CPICalculator :=
  mkCalculator
    (mkClient scenario_categories [] scenario_prices no_fault)
    scenario_categories [].

(** The scenario with all prices doubled on day 1. *)
Definition doubled_prices : list price_row :=
  [mkPrice 101 (Some 10%R) 0; mkPrice 101 (Some 20%R) 1;
   mkPrice 102 (Some 20%R) 0; mkPrice 102 (Some 40%R) 1].

(** The calculator on a server whose table [prices] is replaced. *)
Definition with_prices (prices : list price_row) (self : CPICalculator)
    : CPICalculator :=
  mkCalculator
    (mkClient (tbl_categories (clickhouse_client self))
              (tbl_products (clickhouse_client self))
              prices
              (fault (clickhouse_client self)))
    (categories self) (products self).



(** "For every date T strictly inside [start, end], a product with no price
    on T but with one on T-1 uses the T-1 price as its current price at T":
    the column selected for T exists and holds that price for the product. *)
Definition forward_fill_on_every_date (self : CPICalculator)
    (start_date end_date : date) : Prop :=
  forall T p v,
    start_date < T < end_date ->
    first_price (tbl_prices (clickhouse_client self)) p T = None ->
    first_price (tbl_prices (clickhouse_client self)) p (T - 1) = Some v ->
    exists current_prices,
      getitem (price_pivot (fetched self start_date end_date)) T =
        Ok current_prices /\
      In (p, Some v) current_prices.

(** The scenario over days 0 to 2 with no price of any product on day 1. *)
Definition skipped_day_prices : list price_row :=
  [mkPrice 101 (Some 10%R) 0; mkPrice 101 (Some 11%R) 2;
   mkPrice 102 (Some 20%R) 0; mkPrice 102 (Some 20%R) 2].

(** The row is dated within [start, end]. *)
Definition in_range (start_date end_date : date) (r : price_row) : bool :=
  (start_date <=? price_date r) && (price_date r <=? end_date).

(** The prices of the scenario with rows of day -1 and day 5 placed before,
    between and after them. *)
Definition interleaved_prices : list price_row :=
  [mkPrice 101 (Some 9%R) (-1);
   mkPrice 101 (Some 10%R) 0; mkPrice 101 (Some 11%R) 1;
   mkPrice 102 (Some 99%R) 5; mkPrice 101 (Some 98%R) (-1);
   mkPrice 102 (Some 20%R) 0; mkPrice 102 (Some 20%R) 1;
   mkPrice 101 (Some 97%R) 5].

(** * Properties *)

(** ** Lists, labels and sorting *)

Lemma isin_In (x : Z) (l : list Z) : isin x l = true <-> In x l.
Proof.
  unfold isin. rewrite existsb_exists. split.
  - intros [y [Hy He]]. apply Z.eqb_eq in He. now subst.
  - intros H. exists x. split; [assumption | apply Z.eqb_refl].
Qed.

Lemma isin_false (x : Z) (l : list Z) : isin x l = false <-> ~ In x l.
Proof.
  rewrite <- isin_In. destruct (isin x l); split; congruence.
Qed.

Lemma In_insert_uniq (x y : Z) (l : list Z) :
  In y (insert_uniq x l) <-> y = x \/ In y l.
Proof.
  induction l as [| z t IH]; simpl.
  - intuition.
  - destruct (x <? z) eqn:Hlt; simpl.
    + intuition.
    + destruct (x =? z) eqn:Heq; simpl.
      * apply Z.eqb_eq in Heq. subst. intuition.
      * rewrite IH. intuition.
Qed.

Lemma In_sort_uniq (y : Z) (l : list Z) : In y (sort_uniq l) <-> In y l.
Proof.
  induction l as [| x t IH]; simpl.
  - tauto.
  - rewrite In_insert_uniq, IH. intuition.
Qed.

Lemma insert_uniq_sorted (x : Z) (l : list Z) :
  StronglySorted Z.lt l -> StronglySorted Z.lt (insert_uniq x l).
Proof.
  induction l as [| z t IH]; intros Hs; simpl.
  - repeat constructor.
  - inversion Hs as [| ? ? Ht Hall]; subst.
    destruct (x <? z) eqn:Hlt.
    + apply Z.ltb_lt in Hlt. constructor; [assumption |].
      constructor; [assumption |].
      eapply Forall_impl; [| exact Hall]. intros; simpl in *; lia.
    + destruct (x =? z) eqn:Heq; [assumption |].
      apply Z.ltb_ge in Hlt. apply Z.eqb_neq in Heq.
      constructor; [auto |].
      apply Forall_forall. intros y Hy. apply In_insert_uniq in Hy.
      destruct Hy as [-> | Hy]; [lia |].
      rewrite Forall_forall in Hall. auto.
Qed.

Lemma sort_uniq_sorted (l : list Z) : StronglySorted Z.lt (sort_uniq l).
Proof.
  induction l; simpl; [constructor | now apply insert_uniq_sorted].
Qed.

Lemma sorted_NoDup (l : list Z) : StronglySorted Z.lt l -> NoDup l.
Proof.
  induction 1 as [| x t Ht IH Hall]; constructor; [| assumption].
  intros Hin. rewrite Forall_forall in Hall. specialize (Hall x Hin). lia.
Qed.

(** A sorted list that contains a lower bound of itself starts with it. *)
Lemma sorted_head (x : Z) (l : list Z) :
  StronglySorted Z.lt l -> In x l -> (forall y, In y l -> x <= y) ->
  exists t, l = x :: t.
Proof.
  intros Hs Hin Hlow. destruct l as [| z t]; [contradiction |].
  destruct Hin as [-> | Hin]; [now exists t |].
  inversion Hs as [| ? ? _ Hall]; subst.
  rewrite Forall_forall in Hall. specialize (Hall x Hin).
  specialize (Hlow z (or_introl eq_refl)). lia.
Qed.

Lemma filter_all {A} (f : A -> bool) (l : list A) :
  (forall x, In x l -> f x = true) -> filter f l = l.
Proof.
  induction l as [| a t IH]; intros H; simpl; [reflexivity |].
  rewrite (H a (or_introl eq_refl)). f_equal.
  apply IH. intros; apply H; now right.
Qed.

Lemma In_merge {A B C} (kl : A -> Z) (kr : B -> Z) (mk : A -> B -> C)
    (l : list A) (r : list B) (c : C) :
  In c (merge kl kr mk l r) <->
  exists a b, In a l /\ In b r /\ kr b = kl a /\ c = mk a b.
Proof.
  unfold merge. rewrite in_flat_map. split.
  - intros [a [Ha Hc]]. apply in_map_iff in Hc. destruct Hc as [b [Hc Hb]].
    apply filter_In in Hb. destruct Hb as [Hb Hk]. apply Z.eqb_eq in Hk.
    exists a, b. auto.
  - intros [a [b [Ha [Hb [Hk Hc]]]]]. exists a. split; [assumption |].
    apply in_map_iff. exists b. split; [auto |].
    apply filter_In. split; [assumption | now apply Z.eqb_eq].
Qed.

Lemma In_dropna (x : Z) (l : list (option Z)) : In x (dropna l) <-> In (Some x) l.
Proof.
  unfold dropna. rewrite in_flat_map. split.
  - intros [[y |] [Hy Hx]]; simpl in Hx; [| contradiction].
    destruct Hx as [-> | []]. assumption.
  - intros H. exists (Some x). simpl. auto.
Qed.

Lemma In_sql_parents (x : Z) (cats : list category) :
  In x (Sql.parents cats) <->
  exists c, In c cats /\ parent c = Some x /\ x <> -1.
Proof.
  unfold Sql.parents. rewrite in_flat_map. split.
  - intros [c [Hc Hx]]. destruct (parent c) as [p |] eqn:Hp; [| contradiction].
    destruct (p =? -1) eqn:He; [contradiction |].
    destruct Hx as [-> | []]. apply Z.eqb_neq in He. eauto.
  - intros [c [Hc [Hp Hne]]]. exists c. split; [assumption |].
    rewrite Hp. apply Z.eqb_neq in Hne. rewrite Hne. simpl. auto.
Qed.

(** ** Leaf categories *)

Lemma leaf_categories_spec (cats : list category) (c : category) :
  In c (leaf_categories cats) <->
  In c cats /\ forall c', In c' cats -> parent c' <> Some (category_id c).
Proof.
  unfold leaf_categories. rewrite filter_In, negb_true_iff, isin_false, In_dropna.
  rewrite in_map_iff. split; intros [Hc H]; split; try assumption.
  - intros c' Hc' Hp. apply H. now exists c'.
  - intros [c' [Hp Hc']]. exact (H c' Hc' Hp).
Qed.

Lemma sql_leaf_categories_spec (cats : list category) (c : category) :
  In c (Sql.leaf_categories cats) <->
  In c cats /\
  forall c' p, In c' cats -> parent c' = Some p -> p <> -1 -> p <> category_id c.
Proof.
  unfold Sql.leaf_categories.
  rewrite filter_In, negb_true_iff, isin_false, In_sql_parents.
  split; intros [Hc H]; split; try assumption.
  - intros c' p Hc' Hp Hne ->. apply H. now exists c'.
  - intros [c' [Hc' [Hp Hne]]]. exact (H c' _ Hc' Hp Hne eq_refl).
Qed.

(** C9 (as stated, refuted): with a category that is its own parent, no
    other category points to it, yet neither computation keeps it as a leaf. *)
Lemma C9_self_parent_counterexample :
  ~ leaf_iff_no_other_parent leaf_categories self_parent_categories /\
  ~ leaf_iff_no_other_parent Sql.leaf_categories self_parent_categories.
Proof.
  split; intros H;
    destruct (H (mkCategory 1 (Some 1) 1) (or_introl eq_refl)) as [_ Hleaf];
    (assert (Hin : In (mkCategory 1 (Some 1) 1) []);
     [ apply Hleaf; intros c' [<- | []] Hne; now elim Hne | exact Hin ]).
Qed.

(** The two computations disagree on a category whose id is the sentinel:
    the SQL text discards parents equal to [-1], the pandas text does not. *)
Example sentinel_category_leaf_only_in_sql :
  map category_id (Sql.leaf_categories sentinel_categories) = [-1; 2] /\
  map category_id (leaf_categories sentinel_categories) = [2].
Proof. split; reflexivity. Qed.

(** C9 (amended): in [compute_daily_cpi] a category row is a leaf iff no
    category row at all, itself included, has a non-null parent equal to its
    id; in [compute_cpi] the same holds with the parents equal to the
    sentinel [-1] left out. *)
Theorem C9_leaf_iff_never_a_parent (cats : list category) (c : category) :
  (In c (leaf_categories cats) <->
   In c cats /\ forall c', In c' cats -> parent c' <> Some (category_id c)) /\
  (In c (Sql.leaf_categories cats) <->
   In c cats /\
   forall c' p, In c' cats -> parent c' = Some p -> p <> -1 ->
                p <> category_id c).
Proof.
  split; [apply leaf_categories_spec | apply sql_leaf_categories_spec].
Qed.

(** ** Failure of the query *)

(** C8: when the query raises, [compute_cpi] returns [None] after printing
    the failure; [compute_daily_cpi] raises the exception of its query, and a
    run on that server announces the abort and raises it again. *)
Theorem C8_query_failure (self : CPICalculator) (start_date end_date : date)
    (e1 e2 : exn) :
  fault (clickhouse_client self) _ (SelectCPI start_date end_date) = Some e1 ->
  fault (clickhouse_client self) _
        (SelectPrices (date_range start_date end_date)) = Some e2 ->
  compute_cpi self start_date end_date = (None, [CpiSqlFailed e1]) /\
  compute_daily_cpi self start_date end_date = Raise e2 /\
  (init (clickhouse_client self) = Ok self ->
   run (clickhouse_client self) start_date end_date =
   (Raise e2, [Started; Aborted])).
Proof.
  intros H1 H2.
  assert (Hd : compute_daily_cpi self start_date end_date = Raise e2).
  { unfold compute_daily_cpi, _load_prices_for_dates, _execute_clickhouse_query,
      execute. now rewrite H2. }
  repeat split.
  - unfold compute_cpi, _execute_clickhouse_query, execute. now rewrite H1.
  - exact Hd.
  - intros Hi. unfold run. rewrite Hi. simpl. now rewrite Hd.
Qed.

(** The constructor keeps a snapshot of the two tables, or raises what
    the first failing query raises. *)
Lemma init_snapshot (cl : Client) (self : CPICalculator) :
  init cl = Ok self ->
  clickhouse_client self = cl /\
  categories self = tbl_categories cl /\
  products self = tbl_products cl.
Proof.
  unfold init, _load_categories, _load_products, _execute_clickhouse_query,
    execute.
  destruct (fault cl _ SelectCategories); [discriminate |].
  destruct (fault cl _ SelectProducts); [discriminate |].
  simpl. intros [= <-]. auto.
Qed.

Lemma C8_query_failure_witness :
  compute_cpi failing_calculator 0 1 = (None, [CpiSqlFailed (QueryError 210)]) /\
  compute_daily_cpi failing_calculator 0 1 = Raise (QueryError 210) /\
  (init (clickhouse_client failing_calculator) = Ok failing_calculator ->
   run (clickhouse_client failing_calculator) 0 1 =
   (Raise (QueryError 210), [Started; Aborted])).
Proof.
  apply (C8_query_failure failing_calculator 0 1); reflexivity.
Defined.

(** The run on that server: the tables load, the price query fails. *)
Example failing_run :
  run (clickhouse_client failing_calculator) 0 1 =
  (Raise (QueryError 210), [Started; Aborted]).
Proof. reflexivity. Qed.

(** A run on the scenario prints the series and ends well. *)
Example scenario_run_lines (cpi_series : list (date * R)) :
  compute_daily_cpi scenario 0 1 = Ok cpi_series ->
  run (clickhouse_client scenario) 0 1 =
  (Ok tt, [Started; Reporting; Printed cpi_series; ChartSaved; Succeeded]).
Proof.
  intros H. unfold run.
  change (init (clickhouse_client scenario)) with (Ok scenario).
  simpl bind. now rewrite H.
Qed.

(** ** The date axis and the pivot table *)

Lemma In_date_range (s e d : date) : In d (date_range s e) <-> s <= d <= e.
Proof.
  unfold date_range. rewrite in_map_iff. split.
  - intros [i [<- Hi]]. apply in_seq in Hi. lia.
  - intros H. exists (Z.to_nat (d - s)). split; [lia |].
    apply in_seq. lia.
Qed.

Lemma date_range_cons (s e : date) :
  s <= e -> date_range s e = s :: date_range (s + 1) e.
Proof.
  intros H. unfold date_range.
  replace (Z.to_nat (e - s + 1)) with (S (Z.to_nat (e - (s + 1) + 1))) by lia.
  rewrite <- cons_seq. simpl. f_equal; [lia |].
  rewrite <- seq_shift, map_map. apply map_ext. intros i. lia.
Qed.

Lemma first_price_Some (data : list price_row) (p : Z) (d : date) (x : R) :
  first_price data p d = Some x ->
  exists r, In r data /\ price_product r = p /\ price_date r = d /\
            price r = Some x.
Proof.
  induction data as [| r t IH]; simpl; [discriminate |].
  destruct ((price_product r =? p) && (price_date r =? d)) eqn:Hk.
  - apply andb_true_iff in Hk. destruct Hk as [Hp Hd].
    apply Z.eqb_eq in Hp. apply Z.eqb_eq in Hd.
    destruct (price r) as [y |] eqn:Hy.
    + intros [= <-]. exists r. auto.
    + intros H. destruct (IH H) as [r' [Hin Hr']]. exists r'. auto.
  - intros H. destruct (IH H) as [r' [Hin Hr']]. exists r'. auto.
Qed.


(** The query keeps the rows of the requested dates in table order, so the
    first price of a requested date is the same before and after it. *)
Lemma first_price_select (prices : list price_row) (dates : list date)
    (p : Z) (d : date) :
  isin d dates = true ->
  first_price (Sql.select_prices prices dates) p d = first_price prices p d.
Proof.
  intros Hd. unfold Sql.select_prices.
  induction prices as [| r t IH]; simpl; [reflexivity |].
  destruct (isin (price_date r) dates) eqn:Hr; simpl.
  - now rewrite IH.
  - rewrite IH. destruct (price_date r =? d) eqn:He.
    + apply Z.eqb_eq in He. congruence.
    + now rewrite andb_false_r.
Qed.

Lemma has_prices_spec (prices : list price_row) (d : date) :
  has_prices prices d = true <->
  exists r, In r prices /\ price r <> None /\ price_date r = d.
Proof.
  unfold has_prices. rewrite existsb_exists. split.
  - intros [r [Hin H]]. apply andb_true_iff in H. destruct H as [Hn Hd].
    apply Z.eqb_eq in Hd. exists r. repeat split; auto.
    destruct (price r); [discriminate | discriminate].
  - intros [r [Hin [Hn Hd]]]. exists r. split; [assumption |].
    apply andb_true_iff. split; [| now apply Z.eqb_eq].
    destruct (price r); [reflexivity | contradiction].
Qed.

Lemma columns_pivot_table (data : list price_row) (d : date) :
  In d (columns (pivot_table data)) <-> has_prices data d = true.
Proof.
  unfold pivot_table; simpl. rewrite In_sort_uniq, in_map_iff, has_prices_spec.
  split.
  - intros [r [Hd Hr]]. apply filter_In in Hr. destruct Hr as [Hin Hn].
    exists r. repeat split; auto. destruct (price r); [discriminate | discriminate].
  - intros [r [Hin [Hn Hd]]]. exists r. split; [assumption |].
    apply filter_In. split; [assumption |].
    destruct (price r); [reflexivity | contradiction].
Qed.

Lemma has_prices_select (prices : list price_row) (dates : list date) (d : date) :
  has_prices (Sql.select_prices prices dates) d =
  isin d dates && has_prices prices d.
Proof.
  unfold has_prices, Sql.select_prices.
  induction prices as [| r t IH]; simpl.
  - now rewrite andb_false_r.
  - destruct (isin (price_date r) dates) eqn:Hr; simpl; rewrite IH.
    + destruct (price_date r =? d) eqn:He.
      * apply Z.eqb_eq in He. subst. rewrite Hr. simpl.
        now destruct (notnull (price r)).
      * rewrite andb_false_r. reflexivity.
    + destruct (price_date r =? d) eqn:He.
      * apply Z.eqb_eq in He. subst. rewrite Hr. reflexivity.
      * rewrite andb_false_r. reflexivity.
Qed.

Lemma columns_price_pivot (data : list price_row) :
  columns (price_pivot data) = columns (pivot_table data).
Proof. reflexivity. Qed.

(** The column labels of the pivoted frame: the requested dates on which
    some product has a price. *)
Lemma isin_columns_price_pivot (self : CPICalculator) (s e d : date) :
  isin d (columns (price_pivot (fetched self s e))) =
  isin d (date_range s e) && has_prices (tbl_prices (clickhouse_client self)) d.
Proof.
  rewrite columns_price_pivot. unfold fetched.
  rewrite <- has_prices_select.
  destruct (has_prices _ d) eqn:H.
  - apply isin_In, columns_pivot_table. exact H.
  - apply isin_false. rewrite columns_pivot_table. congruence.
Qed.

(** ** Outcome of [compute_daily_cpi] *)

Lemma load_prices_ok (self : CPICalculator) (s e : date) :
  fault (clickhouse_client self) _ (SelectPrices (date_range s e)) = None ->
  _load_prices_for_dates self (date_range s e) = Ok (fetched self s e).
Proof.
  intros H. unfold _load_prices_for_dates, _execute_clickhouse_query, execute.
  now rewrite H.
Qed.

Lemma getitem_ok (df : frame) (d : date) :
  isin d (columns df) = true -> getitem df d = Ok (column_of df d).
Proof. intros H. unfold getitem. now rewrite H. Qed.

Lemma getitem_raise (df : frame) (d : date) :
  isin d (columns df) = false -> getitem df d = Raise (KeyError d).
Proof. intros H. unfold getitem. now rewrite H. Qed.

Section Loop.

Variable df : frame.
Variable value : series -> R.

Local Abbreviation body :=
  (fun d : date => current_prices <- getitem df d ;; Ok (d, value current_prices)).

Lemma loop_ok (l : list date) :
  (forall d, In d l -> isin d (columns df) = true) ->
  for_each body l = Ok (map (fun d => (d, value (column_of df d))) l).
Proof.
  induction l as [| d t IH]; intros H; simpl; [reflexivity |].
  cbv beta. rewrite getitem_ok by (apply H; now left). simpl.
  rewrite IH by (intros; apply H; now right). reflexivity.
Qed.

(** Over a range of dates the loop stops at the earliest date that is
    not a column label. *)
Lemma loop_raise (n : nat) : forall s e d,
  Z.to_nat (e - s + 1) = n ->
  s <= d <= e -> isin d (columns df) = false ->
  exists d', s <= d' <= d /\ isin d' (columns df) = false /\
             (forall d'', s <= d'' < d' -> isin d'' (columns df) = true) /\
             for_each body (date_range s e) = Raise (KeyError d').
Proof.
  induction n as [| n IH]; intros s e d Hn Hd Hmiss; [lia |].
  rewrite date_range_cons by lia. simpl.
  destruct (isin s (columns df)) eqn:Hs.
  - assert (s <> d) by congruence.
    destruct (IH (s + 1) e d) as [d' [Hr [Hm [Hmin Hloop]]]]; try lia;
      [assumption |].
    exists d'. repeat split; try lia; try assumption.
    + intros d'' Hd''. destruct (Z.eq_dec d'' s) as [-> | Hne];
        [assumption | apply Hmin; lia].
    + cbv beta. rewrite getitem_ok by assumption. simpl.
      now rewrite Hloop.
  - exists s. repeat split; try lia; try assumption.
    cbv beta. now rewrite getitem_raise.
Qed.

End Loop.

(** With no query failure and a price on every date of the range, the call
    returns the series of the rounded daily values, in date order. *)
Lemma compute_daily_cpi_ok (self : CPICalculator) (s e : date) :
  fault (clickhouse_client self) _ (SelectPrices (date_range s e)) = None ->
  s <= e ->
  (forall d, s <= d <= e ->
             has_prices (tbl_prices (clickhouse_client self)) d = true) ->
  compute_daily_cpi self s e =
  Ok (map (fun d => (d, round4 (cpi_value self s e d))) (date_range s e)).
Proof.
  intros Hf Hse Hcov.
  assert (Hcol : forall d, In d (date_range s e) ->
            isin d (columns (price_pivot (fetched self s e))) = true).
  { intros d Hd. rewrite isin_columns_price_pivot.
    rewrite (proj2 (isin_In _ _) Hd). apply In_date_range in Hd.
    now rewrite Hcov. }
  unfold compute_daily_cpi. rewrite load_prices_ok by assumption. simpl.
  rewrite getitem_ok by (apply Hcol, In_date_range; lia). simpl.
  rewrite (loop_ok _ (daily_cpi self _) _ Hcol). simpl.
  rewrite map_map. reflexivity.
Qed.

(** When the query succeeds and no product has a price on some date of the
    range, the call raises [KeyError] for the earliest such date. *)
Lemma first_missing_date_raises (self : CPICalculator) (s e d : date) :
  fault (clickhouse_client self) _ (SelectPrices (date_range s e)) = None ->
  s <= d <= e ->
  has_prices (tbl_prices (clickhouse_client self)) d = false ->
  exists d',
    s <= d' <= d /\
    has_prices (tbl_prices (clickhouse_client self)) d' = false /\
    (forall d'', s <= d'' < d' ->
                 has_prices (tbl_prices (clickhouse_client self)) d'' = true) /\
    compute_daily_cpi self s e = Raise (KeyError d').
Proof.
  intros Hf Hd Hnone.
  assert (Hmiss : isin d (columns (price_pivot (fetched self s e))) = false).
  { rewrite isin_columns_price_pivot, Hnone. apply andb_false_r. }
  destruct (loop_raise (price_pivot (fetched self s e))
              (daily_cpi self
                 (merged_data self
                    (column_of (price_pivot (fetched self s e)) s)))
              _ s e d eq_refl Hd Hmiss)
    as [d' [Hr [Hm [Hmin Hloop]]]].
  assert (Hin : forall x, s <= x <= e -> isin x (date_range s e) = true).
  { intros x Hx. apply isin_In, In_date_range. exact Hx. }
  exists d'. repeat split; try lia.
  - rewrite isin_columns_price_pivot, Hin in Hm by lia. exact Hm.
  - intros d'' Hd''. specialize (Hmin d'' Hd'').
    rewrite isin_columns_price_pivot, Hin in Hmin by lia. exact Hmin.
  - unfold compute_daily_cpi. rewrite load_prices_ok by assumption. simpl.
    destruct (isin s (columns (price_pivot (fetched self s e)))) eqn:Hs.
    + rewrite getitem_ok by assumption. simpl. now rewrite Hloop.
    + rewrite getitem_raise by assumption. simpl.
      destruct (Z.eq_dec d' s) as [-> | Hne]; [reflexivity |].
      rewrite Hmin in Hs by lia. discriminate.
Qed.

(** Conversely, a call that returns has met a price on every date of the
    range. *)
Lemma returns_has_prices (self : CPICalculator) (s e d : date)
    (cpi_series : list (date * R)) :
  compute_daily_cpi self s e = Ok cpi_series ->
  s <= d <= e ->
  has_prices (tbl_prices (clickhouse_client self)) d = true.
Proof.
  intros Hok Hd.
  destruct (fault (clickhouse_client self) _ (SelectPrices (date_range s e)))
    as [x |] eqn:Hf.
  - unfold compute_daily_cpi, _load_prices_for_dates, _execute_clickhouse_query,
      execute in Hok. rewrite Hf in Hok. discriminate.
  - destruct (has_prices (tbl_prices (clickhouse_client self)) d) eqn:Hp;
      [reflexivity |].
    destruct (first_missing_date_raises self s e d Hf Hd Hp)
      as [d' [_ [_ [_ Hraise]]]].
    congruence.
Qed.

(** C10: when the query succeeds and some date of the range has no price
    row at all, the call raises the [KeyError] of a column selection instead
    of returning a value: that of the earliest date of the range without a
    price, which is that date when all earlier dates have prices. *)
Theorem C10_missing_date_raises_KeyError (self : CPICalculator) (s e d : date) :
  fault (clickhouse_client self) _ (SelectPrices (date_range s e)) = None ->
  s <= d <= e ->
  (forall r, In r (tbl_prices (clickhouse_client self)) -> price_date r <> d) ->
  exists d',
    s <= d' <= d /\
    has_prices (tbl_prices (clickhouse_client self)) d' = false /\
    (forall d'', s <= d'' < d' ->
                 has_prices (tbl_prices (clickhouse_client self)) d'' = true) /\
    compute_daily_cpi self s e = Raise (KeyError d').
Proof.
  intros Hf Hd Hrows. apply first_missing_date_raises; try assumption.
  destruct (has_prices _ d) eqn:Hp; [| reflexivity].
  apply has_prices_spec in Hp. destruct Hp as [r [Hin [_ Hr]]].
  elim (Hrows r Hin Hr).
Qed.

(** ** Arithmetic of the float model *)

Lemma Rgtb_true (x y : R) : (y < x)%R -> Rgtb x y = true.
Proof. intros H. unfold Rgtb. destruct (Rlt_dec y x); [reflexivity | contradiction]. Qed.

Lemma Rgtb_false (x y : R) : (x <= y)%R -> Rgtb x y = false.
Proof. intros H. unfold Rgtb. destruct (Rlt_dec y x); [lra | reflexivity]. Qed.

Lemma gt0_spec (x : float) : gt0 x = true <-> exists b, x = Some b /\ (0 < b)%R.
Proof.
  destruct x as [b |]; simpl.
  - unfold Rgtb. destruct (Rlt_dec 0 b); split.
    + intros _. now exists b.
    + reflexivity.
    + discriminate.
    + intros [b' [[= <-] Hb]]. contradiction.
  - split; [discriminate | intros [b [H _]]; discriminate].
Qed.

Lemma np_log_pos (x : R) : (0 < x)%R -> np_log x = Fin (ln x).
Proof. intros H. unfold np_log. destruct (Rlt_dec 0 x); [reflexivity | contradiction]. Qed.

Lemma np_log_one : np_log 1 = Fin 0.
Proof. rewrite np_log_pos by lra. now rewrite ln_1. Qed.

Lemma Int_part_IZR (k : Z) : Int_part (IZR k) = k.
Proof. symmetry. apply Int_part_spec. lra. Qed.

Lemma rint_IZR (k : Z) : rint (IZR k) = k.
Proof.
  unfold rint. rewrite Int_part_IZR.
  destruct (Rlt_dec (IZR k - IZR k) (1 / 2)); [reflexivity | lra].
Qed.

(** A value with at most four decimals is left unchanged by [round(4)]. *)
Lemma round4_exact (k : Z) (x : R) : (x * 10000 = IZR k)%R -> round4 x = x.
Proof. intros H. unfold round4. rewrite H, rint_IZR. lra. Qed.

Lemma mean_values_singleton (x : R) : mean_values [Fin x] = Fin x.
Proof. unfold mean_values. simpl. f_equal. lra. Qed.

(** The mean of a non-empty list of zeros. *)
Lemma nanmean_zeros (l : list f64) :
  l <> [] -> (forall x, In x l -> x = Fin 0) -> nanmean l = Fin 0.
Proof.
  intros Hne Hall.
  assert (Hf : filter (fun x => negb (is_nan x)) l = l).
  { clear Hne. induction l as [| a t IH]; [reflexivity |]. simpl.
    rewrite (Hall a (or_introl eq_refl)). simpl. f_equal.
    apply IH. intros; apply Hall; now right. }
  unfold nanmean. rewrite Hf. destruct l as [| v vs]; [congruence |].
  unfold mean_values.
  assert (He : existsb is_neginf (v :: vs) = false).
  { clear Hne Hf. induction (v :: vs) as [| a t IH]; [reflexivity |]. simpl.
    rewrite (Hall a (or_introl eq_refl)). simpl.
    apply IH. intros; apply Hall; now right. }
  rewrite He. f_equal.
  assert (Hs : Rsum (map fin_part (v :: vs)) = 0%R).
  { clear Hne Hf He. induction (v :: vs) as [| a t IH]; [reflexivity |]. simpl.
    rewrite (Hall a (or_introl eq_refl)). simpl.
    rewrite IH by (intros; apply Hall; now right). lra. }
  rewrite Hs. unfold Rdiv. apply Rmult_0_l.
Qed.

(** ** The scenario of the specification *)

Lemma scenario_fetched : fetched scenario 0 1 = scenario_prices.
Proof. reflexivity. Qed.

Lemma scenario_price_pivot :
  price_pivot scenario_prices =
  mkFrame [0; 1]
          [(101, [Some 10%R; Some 11%R]); (102, [Some 20%R; Some 20%R])].
Proof. reflexivity. Qed.

Lemma scenario_merged_rows :
  merged_rows scenario 0 1 =
  [mkMerged 101 1 (Some 10%R) (6 / 10); mkMerged 102 2 (Some 20%R) (4 / 10)].
Proof. reflexivity. Qed.

Lemma scenario_daily_rows (d : date) (Hd : d = 0 \/ d = 1) :
  daily_rows scenario 0 1 d =
  [mkDaily (mkMerged 101 1 (Some 10%R) (6 / 10))
           (Some (if d =? 0 then 10 else 11)%R);
   mkDaily (mkMerged 102 2 (Some 20%R) (4 / 10)) (Some 20%R)].
Proof. destruct Hd as [-> | ->]; reflexivity. Qed.

(** ** The weighted sum over leaf categories *)

Lemma nansum_Rsum (l : list float) : nansum l = Rsum (map value_of l).
Proof.
  induction l as [| [r |] t IH]; simpl; [reflexivity | now rewrite IH |].
  rewrite IH. lra.
Qed.

Lemma nansum_app (l1 l2 : list float) :
  nansum (l1 ++ l2) = (nansum l1 + nansum l2)%R.
Proof.
  induction l1 as [| [r |] t IH]; simpl; rewrite ?IH; lra.
Qed.

Lemma nansum_flat_map {A} (f : A -> list float) (l : list A) :
  nansum (flat_map f l) = Rsum (map (fun a => nansum (f a)) l).
Proof.
  induction l as [| a t IH]; simpl; [reflexivity |].
  now rewrite nansum_app, IH.
Qed.

Lemma Rsum_map_plus {A} (f g : A -> R) (l : list A) :
  Rsum (map (fun a => f a + g a)%R l) = (Rsum (map f l) + Rsum (map g l))%R.
Proof.
  induction l as [| a t IH]; simpl; [lra | rewrite IH; lra].
Qed.

(** Over distinct keys, a sum of terms guarded by [k0 = k] has at most
    one term. *)
Lemma Rsum_guarded (f : Z -> R) (k0 : Z) (keys : list Z) :
  NoDup keys ->
  Rsum (map (fun k => if k0 =? k then f k else 0%R) keys) =
  if isin k0 keys then f k0 else 0%R.
Proof.
  induction 1 as [| k t Hk Hnd IH]; simpl; [reflexivity |].
  rewrite IH. destruct (k0 =? k) eqn:He; simpl.
  - apply Z.eqb_eq in He. subst k.
    apply isin_false in Hk. rewrite Hk. lra.
  - lra.
Qed.

Lemma isin_group_keys (k : Z) (valid : list daily_row) :
  isin k (sort_uniq (map (fun r => m_category_id (d_merged r)) valid)) =
  existsb (fun r => m_category_id (d_merged r) =? k) valid.
Proof.
  apply eq_true_iff_eq.
  rewrite isin_In, In_sort_uniq, in_map_iff, existsb_exists.
  split; intros [r [H1 H2]]; exists r.
  - split; [assumption | now apply Z.eqb_eq].
  - apply Z.eqb_eq in H2. auto.
Qed.

(** Merging one row per key with the leaf rows and summing: each leaf row
    whose id is a key adds its weight times the value of that key. *)
Lemma nansum_merge_keys (g : Z -> float) (keys : list Z) (leaves : list category) :
  NoDup keys ->
  nansum (merge fst category_id (fun ci lc => fmul (snd ci) (weight lc))
                (map (fun k => (k, g k)) keys) leaves) =
  nansum (map (fun lc => fmul (g (category_id lc)) (weight lc))
              (filter (fun lc => isin (category_id lc) keys) leaves)).
Proof.
  intros Hnd. unfold merge.
  rewrite nansum_flat_map, map_map. simpl fst. simpl snd.
  induction leaves as [| lc t IH].
  - simpl. clear. induction keys; simpl; [reflexivity | lra].
  - transitivity
      (Rsum (map (fun k => (if category_id lc =? k
                            then value_of (fmul (g k) (weight lc)) else 0) +
                           nansum (map (fun lc0 => fmul (g k) (weight lc0))
                                     (filter (fun b => category_id b =? k) t)))%R
                 keys)).
    { f_equal. apply map_ext. intros k. simpl filter.
      destruct (category_id lc =? k); simpl map.
      - rewrite !nansum_Rsum. simpl. reflexivity.
      - lra. }
    rewrite Rsum_map_plus, IH, Rsum_guarded by assumption.
    simpl filter. destruct (isin (category_id lc) keys); simpl.
    + destruct (fmul (g (category_id lc)) (weight lc)); simpl; lra.
    + lra.
Qed.

(** The merge of the group-by result with the leaf rows adds up to the
    formula of the specification. *)
Lemma final_data_formula (leaves : list category) (valid : list daily_row) :
  nansum (final_data (category_index valid) leaves) = cpi_formula leaves valid.
Proof.
  unfold final_data, category_index, cpi_formula.
  rewrite (nansum_merge_keys
             (fun k => np_exp (nanmean (map log_ratio
                (filter (fun r => m_category_id (d_merged r) =? k) valid)))))
    by apply sorted_NoDup, sort_uniq_sorted.
  f_equal. f_equal. apply filter_ext. intros lc. apply isin_group_keys.
Qed.

Lemma cpi_value_formula (self : CPICalculator) (s e d : date) :
  cpi_value self s e d =
  cpi_formula (leaf_categories (categories self)) (valid_rows self s e d).
Proof. apply final_data_formula. Qed.

(** Evaluation of [cpi_value] on concrete tables: the frames are computed,
    the comparisons and logarithms of the positive prices are resolved. *)
Ltac eval_cpi_value :=
  rewrite cpi_value_formula;
  unfold valid_rows, valid_data;
  match goal with
  | |- context [daily_rows ?c ?s ?e ?d] =>
      let t := eval cbv -[IZR Rdiv] in (daily_rows c s e d) in
      change (daily_rows c s e d) with t
  end;
  match goal with
  | |- context [leaf_categories ?cs] =>
      let t := eval cbv -[IZR Rdiv] in (leaf_categories cs) in
      change (leaf_categories cs) with t
  end;
  cbn [filter]; unfold is_valid;
  cbn [d_merged base_price current_price gt0 notnull andb];
  repeat match goal with
         | |- context [Rgtb ?x ?y] =>
             first [ rewrite (Rgtb_true x y) by lra
                   | rewrite (Rgtb_false x y) by lra ]
         end;
  cbn [andb filter];
  unfold cpi_formula;
  cbn [filter existsb in_category d_merged m_category_id category_id
       Z.eqb Pos.eqb orb map weight];
  unfold log_ratio, price_ratio;
  cbn [current_price base_price d_merged Z.eqb];
  rewrite ?np_log_pos by lra;
  unfold nanmean; cbn [filter is_nan negb];
  rewrite ?mean_values_singleton;
  cbn [np_exp fmul nansum];
  rewrite ?exp_ln by lra.

Lemma scenario_value_day0 : cpi_value scenario 0 1 0 = 1%R.
Proof. eval_cpi_value. lra. Qed.

Lemma scenario_value_day1 : cpi_value scenario 0 1 1 = (106 / 100)%R.
Proof. eval_cpi_value. lra. Qed.

Lemma scenario_has_prices (d : date) :
  0 <= d <= 1 -> has_prices scenario_prices d = true.
Proof.
  intros H. assert (Hd : d = 0 \/ d = 1) by lia.
  destruct Hd as [-> | ->]; reflexivity.
Qed.

(** C3: on the scenario of the specification, the series is 1.0 on day 0
    and 1.06 on day 1. *)
Theorem C3_scenario_series :
  compute_daily_cpi scenario 0 1 = Ok [(0, 1%R); (1, (106 / 100)%R)].
Proof.
  rewrite compute_daily_cpi_ok;
    [| reflexivity | lia | exact scenario_has_prices].
  change (date_range 0 1) with [0; 1]. cbn [map].
  rewrite scenario_value_day0, scenario_value_day1.
  rewrite (round4_exact 10000 1) by lra.
  rewrite (round4_exact 10600 (106 / 100)) by lra.
  reflexivity.
Qed.

Lemma C10_missing_date_raises_KeyError_witness :
  exists d',
    0 <= d' <= 2 /\
    has_prices (tbl_prices (clickhouse_client scenario)) d' = false /\
    (forall d'', 0 <= d'' < d' ->
                 has_prices (tbl_prices (clickhouse_client scenario)) d'' = true) /\
    compute_daily_cpi scenario 0 2 = Raise (KeyError d').
Proof.
  apply (C10_missing_date_raises_KeyError scenario 0 2 2).
  - reflexivity.
  - lia.
  - intros r [<- | [<- | [<- | [<- | []]]]]; simpl; lia.
Defined.

(** On the scenario, asking for day 2, which has no price row, raises
    [KeyError] for that day although days 0 and 1 are complete. *)
Example scenario_missing_day2 :
  compute_daily_cpi scenario 0 2 = Raise (KeyError 2).
Proof.
  destruct (first_missing_date_raises scenario 0 2 2)
    as [d' [Hr [Hm [_ Hraise]]]].
  - reflexivity.
  - lia.
  - reflexivity.
  - assert (Hd : d' = 0 \/ d' = 1 \/ d' = 2) by lia.
    destruct Hd as [-> | [-> | ->]]; [discriminate Hm | discriminate Hm |].
    exact Hraise.
Qed.

(** ** Cells of the forward-filled pivot *)

Lemma In_index_pivot_table (data : list price_row) (p : Z) :
  In p (index (pivot_table data)) <->
  exists r, In r data /\ price r <> None /\ price_product r = p.
Proof.
  unfold index, pivot_table; simpl. rewrite map_map; simpl. rewrite map_id.
  rewrite In_sort_uniq, in_map_iff. split.
  - intros [r [Hp Hr]]. apply filter_In in Hr. destruct Hr as [Hin Hn].
    exists r. repeat split; auto. destruct (price r); discriminate.
  - intros [r [Hin [Hn Hp]]]. exists r. split; [assumption |].
    apply filter_In. split; [assumption |].
    destruct (price r); [reflexivity | contradiction].
Qed.

Lemma In_column_of_price_pivot (data : list price_row) (d : date) (p : Z)
    (x : float) :
  In (p, x) (column_of (price_pivot data) d) <->
  In p (index (pivot_table data)) /\ x = filled data p d.
Proof.
  unfold column_of, price_pivot, ffill, index, filled, pivot_table; simpl.
  rewrite !map_map; simpl. rewrite map_id, in_map_iff. split.
  - intros [q [[= <- <-] Hq]]. auto.
  - intros [Hp ->]. exists p. auto.
Qed.

Lemma cell_not_column (cols : list date) (vals : list float) (d : date) :
  ~ In d cols -> cell cols vals d = None.
Proof.
  revert vals. induction cols as [| c cs IH]; intros vals H; [reflexivity |].
  simpl. destruct vals as [| v vs]; [reflexivity |].
  destruct (c =? d) eqn:He.
  - apply Z.eqb_eq in He. elim H. now left.
  - apply IH. intros Hin. apply H. now right.
Qed.

(** A cell that holds a price is not touched by the forward fill. *)
Lemma cell_ffill_observed (f : date -> float) (cols : list date) (last : float)
    (d : date) (v : R) :
  In d cols -> f d = Some v ->
  cell cols (ffill_from last (map f cols)) d = Some v.
Proof.
  revert last. induction cols as [| c cs IH]; intros last Hin Hv; [contradiction |].
  simpl. destruct (c =? d) eqn:He.
  - apply Z.eqb_eq in He. subst c. now rewrite Hv.
  - apply IH; [| assumption]. destruct Hin as [-> | Hin]; [| assumption].
    rewrite Z.eqb_refl in He. discriminate.
Qed.

(** The first column has nothing to its left to be filled from. *)
Lemma cell_ffill_first (f : date -> float) (cs : list date) (d : date) :
  cell (d :: cs) (ffill_from None (map f (d :: cs))) d = f d.
Proof. simpl. rewrite Z.eqb_refl. now destruct (f d). Qed.

(** An empty cell takes the filled value of the column just before it. *)
Lemma cell_ffill_step (f : date -> float) (l1 l2 : list date) (a b : date) :
  forall last,
  NoDup (l1 ++ a :: b :: l2) ->
  cell (l1 ++ a :: b :: l2) (ffill_from last (map f (l1 ++ a :: b :: l2))) b =
  match f b with
  | Some x => Some x
  | None => cell (l1 ++ a :: b :: l2)
                 (ffill_from last (map f (l1 ++ a :: b :: l2))) a
  end.
Proof.
  induction l1 as [| c t IH]; intros last Hnd.
  - simpl in *. inversion Hnd as [| ? ? Ha _]; subst.
    assert (Hab : (a =? b) = false).
    { apply Z.eqb_neq. intros ->. apply Ha. now left. }
    rewrite Hab, !Z.eqb_refl. now destruct (f b).
  - simpl in *. inversion Hnd as [| ? ? Hc Hnd']; subst.
    assert (Hcb : (c =? b) = false).
    { apply Z.eqb_neq. intros ->. apply Hc. apply in_or_app. right. simpl. auto. }
    assert (Hca : (c =? a) = false).
    { apply Z.eqb_neq. intros ->. apply Hc. apply in_or_app. right. simpl. auto. }
    rewrite Hcb, Hca. apply IH. assumption.
Qed.

Lemma sorted_app_inv (l1 : list Z) (x : Z) (l2 : list Z) :
  StronglySorted Z.lt (l1 ++ x :: l2) ->
  Forall (fun y => y < x) l1 /\ StronglySorted Z.lt (x :: l2).
Proof.
  induction l1 as [| c t IH]; simpl; intros Hs.
  - split; [constructor | assumption].
  - inversion Hs as [| ? ? Ht Hall]; subst.
    destruct (IH Ht) as [H1 H2]. split; [| assumption].
    constructor; [| assumption].
    rewrite Forall_forall in Hall. apply Hall. apply in_or_app. right. now left.
Qed.

(** In a sorted list of distinct dates, [T - 1] and [T] are neighbours. *)
Lemma sorted_neighbours (l : list Z) (T : Z) :
  StronglySorted Z.lt l -> In (T - 1) l -> In T l ->
  exists l1 l2, l = l1 ++ (T - 1) :: T :: l2.
Proof.
  intros Hs Hp HT.
  destruct (in_split _ _ Hp) as [l1 [rest ->]].
  destruct (sorted_app_inv _ _ _ Hs) as [Hlt Hs'].
  inversion Hs' as [| ? ? Hrest Hall]; subst.
  rewrite Forall_forall in Hlt, Hall.
  assert (HTrest : In T rest).
  { apply in_app_or in HT. destruct HT as [H | [H | H]]; [| lia | assumption].
    specialize (Hlt _ H). lia. }
  destruct (sorted_head T rest Hrest HTrest) as [l2 ->].
  { intros y Hy. specialize (Hall y Hy). lia. }
  now exists l1, l2.
Qed.

(** An empty cell next to the cell of the day before takes its value. *)
Lemma cell_ffill_forward (f : date -> float) (cols : list date) (T : date)
    (v : R) :
  StronglySorted Z.lt cols -> In (T - 1) cols -> In T cols ->
  f T = None -> f (T - 1) = Some v ->
  cell cols (ffill_from None (map f cols)) T = Some v.
Proof.
  intros Hs H1 H2 Hnone Hprev.
  destruct (sorted_neighbours cols T Hs H1 H2) as [l1 [l2 ->]].
  rewrite cell_ffill_step by (apply sorted_NoDup; assumption).
  rewrite Hnone. now apply cell_ffill_observed.
Qed.

(** ** Base and current prices *)

Section Prices.

Variable self : CPICalculator.
Variables s e : date.

Local Abbreviation table := (tbl_prices (clickhouse_client self)).
Local Abbreviation data := (fetched self s e).

Lemma In_fetched (r : price_row) :
  In r data <-> In r table /\ s <= price_date r <= e.
Proof.
  unfold fetched, Sql.select_prices.
  now rewrite filter_In, isin_In, In_date_range.
Qed.

Lemma In_columns_fetched (d : date) :
  In d (columns (pivot_table data)) <->
  s <= d <= e /\ has_prices table d = true.
Proof.
  rewrite <- isin_In, <- columns_price_pivot.
  rewrite isin_columns_price_pivot, andb_true_iff.
  now rewrite isin_In, In_date_range.
Qed.

Lemma first_price_fetched (p : Z) (d : date) :
  s <= d <= e -> first_price data p d = first_price table p d.
Proof.
  intros H. apply first_price_select. now apply isin_In, In_date_range.
Qed.

Lemma first_price_has_prices (p : Z) (d : date) (v : R) :
  first_price table p d = Some v -> has_prices table d = true.
Proof.
  intros H. apply first_price_Some in H.
  destruct H as [r [Hin [_ [Hd Hv]]]].
  apply has_prices_spec. exists r. repeat split; congruence.
Qed.

(** The base price: the column of [start_date] is the leftmost one, so
    its cells are the prices observed on that very date. *)
Lemma filled_start (p : Z) :
  s <= e -> filled data p s = first_price table p s.
Proof.
  intros Hse. unfold filled.
  destruct (has_prices table s) eqn:Hs.
  - assert (Hin : In s (columns (pivot_table data))).
    { apply In_columns_fetched. split; [lia | assumption]. }
    destruct (sorted_head s (columns (pivot_table data))) as [t Ht].
    + apply sort_uniq_sorted.
    + exact Hin.
    + intros y Hy. apply In_columns_fetched in Hy. lia.
    + rewrite Ht, cell_ffill_first. apply first_price_fetched. lia.
  - rewrite cell_not_column.
    + destruct (first_price table p s) eqn:Hp; [| reflexivity].
      apply first_price_has_prices in Hp. congruence.
    + rewrite In_columns_fetched. intros [_ H]. congruence.
Qed.

(** The current price of a date with a price of the product itself. *)
Lemma filled_observed (p : Z) (d : date) (v : R) :
  s <= d <= e -> first_price table p d = Some v ->
  filled data p d = Some v.
Proof.
  intros Hd Hv. unfold filled. apply cell_ffill_observed.
  - apply In_columns_fetched. split; [assumption |].
    eapply first_price_has_prices; eassumption.
  - now rewrite first_price_fetched.
Qed.

(** The current price of a date without a price of the product, the day
    after one with a price. *)
Lemma filled_forward (p : Z) (T : date) (v : R) :
  s < T <= e ->
  has_prices table T = true ->
  first_price table p T = None ->
  first_price table p (T - 1) = Some v ->
  filled data p T = Some v.
Proof.
  intros HT Hcol Hnone Hprev.
  assert (H1 : In (T - 1) (columns (pivot_table data))).
  { apply In_columns_fetched. split; [lia |].
    eapply first_price_has_prices; eassumption. }
  assert (H2 : In T (columns (pivot_table data))).
  { apply In_columns_fetched. split; [lia | assumption]. }
  unfold filled. apply cell_ffill_forward; try assumption.
  - apply sort_uniq_sorted.
  - rewrite first_price_fetched by lia. assumption.
  - rewrite first_price_fetched by lia. assumption.
Qed.

Lemma In_merged_rows (m : merged_row) :
  In m (merged_rows self s e) <->
  exists p lc,
    In p (products self) /\
    In (product_id p) (index (pivot_table data)) /\
    In lc (leaf_categories (categories self)) /\
    category_id lc = product_category p /\
    m = mkMerged (product_id p) (product_category p)
                 (filled data (product_id p) s) (weight lc).
Proof.
  unfold merged_rows, merged_data. rewrite In_merge. split.
  - intros [[p b] [lc [Hpb [Hlc [Hk ->]]]]]. simpl in *.
    apply In_merge in Hpb.
    destruct Hpb as [p' [[q x] [Hp [Hb [Hq [= -> ->]]]]]]. simpl in *. subst q.
    apply In_column_of_price_pivot in Hb. destruct Hb as [Hidx ->].
    exists p', lc. auto.
  - intros [p [lc [Hp [Hidx [Hlc [Hk ->]]]]]].
    exists (p, (product_id p, filled data (product_id p) s)), lc.
    simpl. repeat split; auto.
    apply In_merge. exists p, (product_id p, filled data (product_id p) s).
    repeat split; auto.
    apply In_column_of_price_pivot. auto.
Qed.

Lemma In_daily_rows (T : date) (r : daily_row) :
  In r (daily_rows self s e T) <->
  In (d_merged r) (merged_rows self s e) /\
  current_price r = filled data (m_product_id (d_merged r)) T.
Proof.
  unfold daily_rows, daily_data. rewrite In_merge. split.
  - intros [m [[q x] [Hm [Hc [Hq ->]]]]]. simpl in *. subst q.
    apply In_column_of_price_pivot in Hc. destruct Hc as [_ ->]. auto.
  - intros [Hm Hc].
    exists (d_merged r), (m_product_id (d_merged r), current_price r).
    simpl. repeat split; auto.
    + apply In_column_of_price_pivot. split; [| assumption].
      apply In_merged_rows in Hm.
      destruct Hm as [p [lc [_ [Hidx [_ [_ ->]]]]]]. exact Hidx.
    + now destruct r.
Qed.

(** A product with a merged row has a price within the range. *)
Lemma merged_rows_range (m : merged_row) :
  In m (merged_rows self s e) -> s <= e.
Proof.
  intros H. apply In_merged_rows in H.
  destruct H as [p [lc [_ [Hidx _]]]].
  apply In_index_pivot_table in Hidx. destruct Hidx as [r [Hr _]].
  apply In_fetched in Hr. lia.
Qed.

Lemma merged_rows_base_price (m : merged_row) :
  In m (merged_rows self s e) ->
  base_price m = first_price table (m_product_id m) s.
Proof.
  intros H. pose proof (merged_rows_range m H) as Hse.
  apply In_merged_rows in H. destruct H as [p [lc [_ [_ [_ [_ ->]]]]]].
  simpl. now apply filled_start.
Qed.

Lemma valid_rows_spec (T : date) (r : daily_row) :
  In r (valid_rows self s e T) <->
  In r (daily_rows self s e T) /\
  (exists c b, current_price r = Some c /\
               base_price (d_merged r) = Some b /\ (0 < b)%R).
Proof.
  unfold valid_rows, valid_data, is_valid.
  rewrite filter_In, andb_true_iff, gt0_spec. split.
  - intros [Hin [[b [Hb Hpos]] Hn]]. split; [assumption |].
    destruct (current_price r) as [c |]; [| discriminate].
    exists c, b. auto.
  - intros [Hin [c [b [Hc [Hb Hpos]]]]]. split; [assumption |].
    split; [now exists b | now rewrite Hc].
Qed.

End Prices.

(** C1 (as stated, refuted): P1 has a price the day before [start] and none
    on [start]; its base price is undefined, not carried from the day
    before. *)
Lemma C1_base_price_not_carried_counterexample :
  ~ base_price_carried_to_start (calculator_on early_prices) 0 1.
Proof.
  intros H.
  specialize (H (mkMerged 101 1 None (6 / 10)) (or_introl eq_refl)).
  discriminate H.
Qed.

(** C1 (amended): the base price of every product of [merged_data] is the
    first non-null price of the table dated exactly [start]; no price dated
    before [start] is used; a product with no price dated exactly [start]
    has an undefined base price and has no row in the valid data of any
    date. *)
Theorem C1_base_price_is_price_on_start (self : CPICalculator) (s e : date) :
  (forall m, In m (merged_rows self s e) ->
     base_price m =
     first_price (tbl_prices (clickhouse_client self)) (m_product_id m) s) /\
  (forall p T r,
     first_price (tbl_prices (clickhouse_client self)) p s = None ->
     In r (valid_rows self s e T) -> m_product_id (d_merged r) <> p).
Proof.
  split.
  - apply merged_rows_base_price.
  - intros p T r Hnone Hr Hp. apply valid_rows_spec in Hr.
    destruct Hr as [Hin [c [b [_ [Hb _]]]]].
    apply In_daily_rows in Hin. destruct Hin as [Hm _].
    apply merged_rows_base_price in Hm. congruence.
Qed.

Lemma C1_base_price_is_price_on_start_witness :
  In (mkMerged 101 1 None (6 / 10))
     (merged_rows (calculator_on early_prices) 0 1) /\
  base_price (mkMerged 101 1 None (6 / 10)) = first_price early_prices 101 0 /\
  first_price early_prices 101 0 = None /\
  (forall T r, In r (valid_rows (calculator_on early_prices) 0 1 T) ->
               m_product_id (d_merged r) <> 101).
Proof.
  split; [left; reflexivity |].
  split; [| split; [reflexivity |]].
  - apply (proj1 (C1_base_price_is_price_on_start
                    (calculator_on early_prices) 0 1)).
    left; reflexivity.
  - intros T r.
    apply (proj2 (C1_base_price_is_price_on_start
                    (calculator_on early_prices) 0 1) 101 T r).
    reflexivity.
Defined.

(** ** Forward fill of the current price *)

(** C5 (as stated, refuted): day 1 lies strictly inside the range 0..2,
    P1 has a price on day 0 and none on day 1, but no product has a price on
    day 1: the pivot has no column for it and its selection raises, so P1
    has no current price there. *)
Lemma C5_date_without_prices_counterexample :
  ~ forward_fill_on_every_date (calculator_on skipped_day_prices) 0 2.
Proof.
  intros H.
  destruct (H 1 101 10%R ltac:(lia) eq_refl eq_refl) as [cur [Hget _]].
  discriminate Hget.
Qed.

(** On that table the whole call raises [KeyError] for day 1. *)
Example skipped_day_raises :
  compute_daily_cpi (calculator_on skipped_day_prices) 0 2 = Raise (KeyError 1).
Proof.
  destruct (first_missing_date_raises (calculator_on skipped_day_prices) 0 2 1)
    as [d' [Hr [Hm [_ Hraise]]]].
  - reflexivity.
  - lia.
  - reflexivity.
  - assert (Hd : d' = 0 \/ d' = 1) by lia.
    destruct Hd as [-> | ->]; [discriminate Hm | exact Hraise].
Qed.

(** C5 (amended): for a date T after [start] and within the range (strictly
    inside it, or its last date), on which some product has a price (T is a
    column of the pivot), a product with no price on T and a price on T-1
    has the T-1 price as current price: the column selected for T holds it
    for that product, and so does every row of the daily data of T. *)
Theorem C5_forward_fill_from_previous_day (self : CPICalculator)
    (s e T : date) (p : Z) (v : R) :
  s < T <= e ->
  has_prices (tbl_prices (clickhouse_client self)) T = true ->
  first_price (tbl_prices (clickhouse_client self)) p T = None ->
  first_price (tbl_prices (clickhouse_client self)) p (T - 1) = Some v ->
  getitem (price_pivot (fetched self s e)) T =
    Ok (column_of (price_pivot (fetched self s e)) T) /\
  In (p, Some v) (column_of (price_pivot (fetched self s e)) T) /\
  (forall x, In (p, x) (column_of (price_pivot (fetched self s e)) T) ->
             x = Some v) /\
  (forall r, In r (daily_rows self s e T) ->
             m_product_id (d_merged r) = p -> current_price r = Some v).
Proof.
  intros HT Hcol Hnone Hprev.
  assert (Hfill : filled (fetched self s e) p T = Some v)
    by (apply filled_forward; [lia | assumption ..]).
  repeat split.
  - apply getitem_ok. rewrite isin_columns_price_pivot, Hcol, andb_true_r.
    apply isin_In, In_date_range. lia.
  - apply In_column_of_price_pivot. split; [| now rewrite Hfill].
    apply In_index_pivot_table.
    apply first_price_Some in Hprev. destruct Hprev as [r [Hin [Hp [Hd Hv]]]].
    exists r. repeat split; [| congruence | assumption].
    apply In_fetched. split; [assumption | lia].
  - intros x Hx. apply In_column_of_price_pivot in Hx. destruct Hx as [_ ->].
    exact Hfill.
  - intros r Hr Hp. apply In_daily_rows in Hr. destruct Hr as [_ ->].
    now rewrite Hp.
Qed.

Lemma C5_forward_fill_from_previous_day_witness :
  getitem (price_pivot (fetched (calculator_on gap_prices) 0 3)) 2 =
    Ok (column_of (price_pivot (fetched (calculator_on gap_prices) 0 3)) 2) /\
  In (101, Some 11%R)
     (column_of (price_pivot (fetched (calculator_on gap_prices) 0 3)) 2) /\
  (forall x,
     In (101, x)
        (column_of (price_pivot (fetched (calculator_on gap_prices) 0 3)) 2) ->
     x = Some 11%R) /\
  (forall r, In r (daily_rows (calculator_on gap_prices) 0 3 2) ->
             m_product_id (d_merged r) = 101 -> current_price r = Some 11%R).
Proof.
  apply (C5_forward_fill_from_previous_day (calculator_on gap_prices) 0 3 2 101).
  - lia.
  - reflexivity.
  - reflexivity.
  - reflexivity.
Defined.

(** With P1 priced on day -1 but not on day 0, P1 is left out on both days:
    only B's weight remains. *)
Example early_prices_series :
  compute_daily_cpi (calculator_on early_prices) 0 1 =
  Ok [(0, (4 / 10)%R); (1, (4 / 10)%R)].
Proof.
  rewrite compute_daily_cpi_ok; [| reflexivity | lia |].
  - change (date_range 0 1) with [0; 1]. cbn [map].
    assert (H0 : cpi_value (calculator_on early_prices) 0 1 0 = (4 / 10)%R)
      by (eval_cpi_value; lra).
    assert (H1 : cpi_value (calculator_on early_prices) 0 1 1 = (4 / 10)%R)
      by (eval_cpi_value; lra).
    rewrite H0, H1, (round4_exact 4000 (4 / 10)) by lra. reflexivity.
  - intros d Hd. assert (H : d = 0 \/ d = 1) by lia.
    destruct H as [-> | ->]; reflexivity.
Qed.

(** ** The aggregation formula *)

Lemma log_ratio_positive (r : daily_row) (c b : R) :
  current_price r = Some c -> base_price (d_merged r) = Some b ->
  (0 < c)%R -> (0 < b)%R ->
  log_ratio r = Fin (ln (price_relative r)).
Proof.
  intros Hc Hb Hc0 Hb0. unfold log_ratio, price_ratio, price_relative.
  rewrite Hc, Hb. simpl. apply np_log_pos.
  apply Rdiv_lt_0_compat; assumption.
Qed.

(** The mean of a non-empty list of finite values. *)
Lemma nanmean_finite (l : list R) :
  l <> [] -> nanmean (map Fin l) = Fin (Rsum l / INR (length l)).
Proof.
  intros Hne.
  assert (Hf : filter (fun x => negb (is_nan x)) (map Fin l) = map Fin l).
  { apply filter_all. intros x Hx. apply in_map_iff in Hx.
    destruct Hx as [y [<- _]]. reflexivity. }
  assert (He : existsb is_neginf (map Fin l) = false).
  { clear. induction l; [reflexivity | assumption]. }
  assert (Hm : mean_values (map Fin l) = Fin (Rsum l / INR (length l))).
  { unfold mean_values. rewrite He, map_map, length_map. simpl fin_part.
    now rewrite map_id. }
  unfold nanmean. rewrite Hf.
  destruct l as [| v vs]; [congruence |]. exact Hm.
Qed.

(** With positive prices the formula of the code is the real formula: a
    weighted sum of geometric means of price relatives. *)
Lemma cpi_formula_positive_prices (leaves : list category)
    (valid : list daily_row) :
  (forall r, In r valid ->
     exists c b, current_price r = Some c /\ base_price (d_merged r) = Some b /\
                 (0 < c)%R /\ (0 < b)%R) ->
  cpi_formula leaves valid = cpi_real_formula leaves valid.
Proof.
  intros Hpos. unfold cpi_formula, cpi_real_formula.
  rewrite nansum_Rsum, map_map. f_equal. apply map_ext_in.
  intros lc Hlc. apply filter_In in Hlc. destruct Hlc as [_ Hex].
  assert (Hlogs : map log_ratio (filter (in_category lc) valid) =
                  map Fin (map (fun r => ln (price_relative r))
                               (filter (in_category lc) valid))).
  { rewrite map_map. apply map_ext_in. intros r Hr.
    apply filter_In in Hr. destruct Hr as [Hr _].
    destruct (Hpos r Hr) as [c [b [Hc [Hb [Hc0 Hb0]]]]].
    now apply (log_ratio_positive r c b). }
  rewrite Hlogs, nanmean_finite.
  - rewrite length_map. reflexivity.
  - apply existsb_exists in Hex. destruct Hex as [r [Hr Hc]].
    intros Hnil.
    assert (Hin : In (ln (price_relative r))
                     (map (fun r => ln (price_relative r))
                          (filter (in_category lc) valid))).
    { apply in_map_iff. exists r. split; [reflexivity |].
      apply filter_In. auto. }
    rewrite Hnil in Hin. exact Hin.
Qed.

(** C6: when the call returns (no query failure, a price on every date),
    the value of every date T is, before the final rounding, the sum over
    the leaf categories with at least one surviving row on T of
    exp(mean(log_ratio)) times the weight; the other leaf categories add
    nothing and no weight is rescaled.  When the current prices of the
    surviving rows are positive, this is the weighted sum of the geometric
    means of the price relatives over the real numbers. *)
Theorem C6_cpi_is_weighted_sum_over_surviving_categories
    (self : CPICalculator) (s e : date) :
  fault (clickhouse_client self) _ (SelectPrices (date_range s e)) = None ->
  s <= e ->
  (forall d, s <= d <= e ->
             has_prices (tbl_prices (clickhouse_client self)) d = true) ->
  compute_daily_cpi self s e =
  Ok (map (fun T =>
             (T, round4 (cpi_formula (leaf_categories (categories self))
                                     (valid_rows self s e T))))
          (date_range s e)) /\
  (forall T,
     (forall r, In r (valid_rows self s e T) ->
                exists c, current_price r = Some c /\ (0 < c)%R) ->
     cpi_formula (leaf_categories (categories self)) (valid_rows self s e T) =
     cpi_real_formula (leaf_categories (categories self))
                      (valid_rows self s e T)).
Proof.
  intros Hf Hse Hcov. split.
  - rewrite compute_daily_cpi_ok by assumption.
    f_equal. apply map_ext. intros T. now rewrite cpi_value_formula.
  - intros T Hcur. apply cpi_formula_positive_prices. intros r Hr.
    destruct (Hcur r Hr) as [c [Hc Hc0]].
    apply valid_rows_spec in Hr.
    destruct Hr as [_ [c' [b [Hc' [Hb Hb0]]]]].
    exists c, b. auto.
Qed.

Lemma C6_cpi_is_weighted_sum_over_surviving_categories_witness :
  compute_daily_cpi scenario 0 1 =
  Ok (map (fun T =>
             (T, round4 (cpi_formula (leaf_categories (categories scenario))
                                     (valid_rows scenario 0 1 T))))
          (date_range 0 1)) /\
  (forall T,
     (forall r, In r (valid_rows scenario 0 1 T) ->
                exists c, current_price r = Some c /\ (0 < c)%R) ->
     cpi_formula (leaf_categories (categories scenario))
                 (valid_rows scenario 0 1 T) =
     cpi_real_formula (leaf_categories (categories scenario))
                      (valid_rows scenario 0 1 T)).
Proof.
  apply (C6_cpi_is_weighted_sum_over_surviving_categories scenario 0 1).
  - reflexivity.
  - lia.
  - exact scenario_has_prices.
Defined.

(** ** Non-positive base prices *)

(** C7: a row whose base price is 0 or negative never reaches the valid
    data of any date; every row that reaches the ratio and log steps has a
    positive base price, so its ratio is a quotient by a non-zero number; and
    with such rows present the call still returns a series. *)
Theorem C7_nonpositive_base_is_filtered (self : CPICalculator) (s e : date) :
  fault (clickhouse_client self) _ (SelectPrices (date_range s e)) = None ->
  s <= e ->
  (forall d, s <= d <= e ->
             has_prices (tbl_prices (clickhouse_client self)) d = true) ->
  (exists cpi_series, compute_daily_cpi self s e = Ok cpi_series) /\
  (forall T r b, In r (daily_rows self s e T) ->
                 base_price (d_merged r) = Some b -> (b <= 0)%R ->
                 ~ In r (valid_rows self s e T)) /\
  (forall T r, In r (valid_rows self s e T) ->
     exists c b, current_price r = Some c /\
                 base_price (d_merged r) = Some b /\ (0 < b)%R /\
                 price_ratio r = Some (c / b)%R /\
                 log_ratio r = np_log (c / b)).
Proof.
  intros Hf Hse Hcov. repeat split.
  - eexists. now apply compute_daily_cpi_ok.
  - intros T r b _ Hb Hle Hv. apply valid_rows_spec in Hv.
    destruct Hv as [_ [c [b' [_ [Hb' Hpos]]]]].
    rewrite Hb in Hb'. injection Hb' as <-. lra.
  - intros T r Hv. apply valid_rows_spec in Hv.
    destruct Hv as [_ [c [b [Hc [Hb Hpos]]]]].
    exists c, b. unfold log_ratio, price_ratio. rewrite Hc, Hb. auto.
Qed.

Lemma C7_nonpositive_base_is_filtered_witness :
  In (mkDaily (mkMerged 101 1 (Some 0%R) (6 / 10)) (Some 11%R))
     (daily_rows (calculator_on zero_base_prices) 0 1 1) /\
  ~ In (mkDaily (mkMerged 101 1 (Some 0%R) (6 / 10)) (Some 11%R))
       (valid_rows (calculator_on zero_base_prices) 0 1 1) /\
  (exists cpi_series,
     compute_daily_cpi (calculator_on zero_base_prices) 0 1 = Ok cpi_series).
Proof.
  destruct (C7_nonpositive_base_is_filtered (calculator_on zero_base_prices) 0 1)
    as [Hok [Hout _]].
  - reflexivity.
  - lia.
  - intros d Hd. assert (H : d = 0 \/ d = 1) by lia.
    destruct H as [-> | ->]; reflexivity.
  - split; [left; reflexivity |]. split; [| exact Hok].
    apply (Hout 1 _ 0%R); [left; reflexivity | reflexivity | lra].
Defined.

(** With a base price 0 for P1, the series is that of B alone. *)
Example zero_base_series :
  compute_daily_cpi (calculator_on zero_base_prices) 0 1 =
  Ok [(0, (4 / 10)%R); (1, (4 / 10)%R)].
Proof.
  rewrite compute_daily_cpi_ok; [| reflexivity | lia |].
  - change (date_range 0 1) with [0; 1]. cbn [map].
    assert (H0 : cpi_value (calculator_on zero_base_prices) 0 1 0 = (4 / 10)%R)
      by (eval_cpi_value; lra).
    assert (H1 : cpi_value (calculator_on zero_base_prices) 0 1 1 = (4 / 10)%R)
      by (eval_cpi_value; lra).
    rewrite H0, H1, (round4_exact 4000 (4 / 10)) by lra. reflexivity.
  - intros d Hd. assert (H : d = 0 \/ d = 1) by lia.
    destruct H as [-> | ->]; reflexivity.
Qed.

(** ** The value on the start date *)

(** When every surviving row has a log ratio 0 and every leaf category has
    a surviving row, the formula is the plain sum of the leaf weights. *)
Lemma cpi_formula_unit_ratios (leaves : list category) (valid : list daily_row) :
  (forall r, In r valid -> log_ratio r = Fin 0) ->
  (forall lc, In lc leaves -> existsb (in_category lc) valid = true) ->
  cpi_formula leaves valid = Rsum (map weight leaves).
Proof.
  intros Hlog Hall. unfold cpi_formula. rewrite (filter_all _ _ Hall).
  induction leaves as [| lc t IH]; [reflexivity |].
  simpl. rewrite nanmean_zeros.
  - simpl. rewrite exp_0, IH by (intros; apply Hall; now right). lra.
  - specialize (Hall lc (or_introl eq_refl)).
    apply existsb_exists in Hall. destruct Hall as [r [Hr Hc]].
    intros Hnil.
    assert (Hin : In (log_ratio r) (map log_ratio (filter (in_category lc) valid))).
    { apply in_map, filter_In. auto. }
    rewrite Hnil in Hin. exact Hin.
  - intros x Hx. apply in_map_iff in Hx. destruct Hx as [r [<- Hr]].
    apply filter_In in Hr. apply Hlog. tauto.
Qed.

(** On the start date the current price of a row is its base price. *)
Lemma start_log_ratio (self : CPICalculator) (s e : date) (r : daily_row) :
  In r (valid_rows self s e s) -> log_ratio r = Fin 0.
Proof.
  intros Hv. apply valid_rows_spec in Hv.
  destruct Hv as [Hd [c [b [Hc [Hb Hpos]]]]].
  apply In_daily_rows in Hd. destruct Hd as [Hm Hcur].
  apply In_merged_rows in Hm. destruct Hm as [p [lc [_ [_ [_ [_ Hm]]]]]].
  rewrite Hm in Hcur, Hb. simpl in Hcur, Hb.
  assert (c = b) by congruence. subst c.
  unfold log_ratio, price_ratio. rewrite Hc, Hm. simpl. rewrite Hb.
  replace (b / b)%R with 1%R by (field; lra). apply np_log_one.
Qed.

(** A product of a leaf category with a positive price on the start date
    gives that category a surviving row on the start date. *)
Lemma start_surviving_row (self : CPICalculator) (s e : date) (lc : category)
    (p : product) :
  s <= e ->
  In lc (leaf_categories (categories self)) ->
  In p (products self) ->
  product_category p = category_id lc ->
  gt0 (first_price (tbl_prices (clickhouse_client self)) (product_id p) s) = true ->
  existsb (in_category lc) (valid_rows self s e s) = true.
Proof.
  intros Hse Hlc Hp Hcat Hpos.
  apply gt0_spec in Hpos. destruct Hpos as [b [Hb Hb0]].
  pose (m := mkMerged (product_id p) (product_category p)
                      (filled (fetched self s e) (product_id p) s) (weight lc)).
  assert (Hfill : filled (fetched self s e) (product_id p) s = Some b)
    by (rewrite filled_start; assumption).
  apply existsb_exists. exists (mkDaily m (Some b)). split.
  - apply valid_rows_spec. split.
    + apply In_daily_rows. simpl. split; [| now rewrite Hfill].
      apply In_merged_rows. exists p, lc. repeat split; auto.
      apply In_index_pivot_table.
      apply first_price_Some in Hb. destruct Hb as [r [Hin [Hr [Hd Hv]]]].
      exists r. repeat split; [| congruence | assumption].
      apply In_fetched. split; [assumption | lia].
    + exists b, b. simpl. auto.
  - unfold in_category. simpl. apply Z.eqb_eq. assumption.
Qed.

(** C4 (as stated, refuted): the leaf weights sum to 1 and the only product
    has a positive price on the start date, but leaf B has no product: the
    first value is 0.6. *)
Lemma C4_first_value_counterexample : ~ first_value_is_one one_product 0 0.
Proof.
  intros H.
  assert (Hval : compute_daily_cpi one_product 0 0 = Ok [(0, (6 / 10)%R)]).
  { rewrite compute_daily_cpi_ok; [| reflexivity | lia |].
    - change (date_range 0 0) with [0]. cbn [map].
      assert (H0 : cpi_value one_product 0 0 0 = (6 / 10)%R)
        by (eval_cpi_value; lra).
      rewrite H0, (round4_exact 6000 (6 / 10)) by lra. reflexivity.
    - intros d Hd. assert (d = 0) as -> by lia. reflexivity. }
  destruct H as [rest Hrest].
  - change (leaf_categories (categories one_product)) with scenario_categories.
    simpl. lra.
  - intros p [<- | []]. simpl. apply Rgtb_true. lra.
  - rewrite Hval in Hrest. injection Hrest as Hv _. lra.
Qed.

(** C4 (amended): when the call returns, the leaf weights sum to 1 and every
    leaf category has at least one product with a positive price on the
    start date, the first value of the series is 1.0. *)
Theorem C4_first_value_is_one_when_leaves_covered (self : CPICalculator)
    (s e : date) :
  fault (clickhouse_client self) _ (SelectPrices (date_range s e)) = None ->
  s <= e ->
  (forall d, s <= d <= e ->
             has_prices (tbl_prices (clickhouse_client self)) d = true) ->
  Rsum (map weight (leaf_categories (categories self))) = 1%R ->
  (forall lc, In lc (leaf_categories (categories self)) ->
     exists p, In p (products self) /\
               product_category p = category_id lc /\
               gt0 (first_price (tbl_prices (clickhouse_client self))
                                (product_id p) s) = true) ->
  exists rest, compute_daily_cpi self s e = Ok ((s, 1%R) :: rest).
Proof.
  intros Hf Hse Hcov Hsum Hleaf.
  rewrite compute_daily_cpi_ok, date_range_cons by assumption.
  cbn [map]. eexists. do 3 f_equal.
  rewrite cpi_value_formula, cpi_formula_unit_ratios, Hsum.
  - apply (round4_exact 10000). lra.
  - intros r. apply start_log_ratio.
  - intros lc Hlc. destruct (Hleaf lc Hlc) as [p [Hp [Hcat Hpos]]].
    now apply (start_surviving_row self s e lc p).
Qed.

Lemma C4_first_value_is_one_when_leaves_covered_witness :
  exists rest, compute_daily_cpi scenario 0 1 = Ok ((0, 1%R) :: rest).
Proof.
  apply (C4_first_value_is_one_when_leaves_covered scenario 0 1).
  - reflexivity.
  - lia.
  - exact scenario_has_prices.
  - change (leaf_categories (categories scenario)) with scenario_categories.
    simpl. lra.
  - change (leaf_categories (categories scenario)) with scenario_categories.
    intros lc [<- | [<- | []]].
    + exists (mkProduct 101 1). repeat split; [left; reflexivity |].
      simpl. apply Rgtb_true. lra.
    + exists (mkProduct 102 2). repeat split; [right; left; reflexivity |].
      simpl. apply Rgtb_true. lra.
Defined.

(** ** The single-point query *)


(** P1 has no price on day 2: the daily series carries its price of day 1
    to day 2. *)
Example gap_daily_value_day2 :
  cpi_value (calculator_on gap_prices) 0 3 2 = (106 / 100)%R.
Proof. eval_cpi_value. lra. Qed.

(** * Further properties of the calculator *)

(** ** When the daily computation returns, and the shape of its series *)

Lemma compute_daily_cpi_empty_range (self : CPICalculator) (s e : date) :
  e < s -> forall cpi_series, compute_daily_cpi self s e <> Ok cpi_series.
Proof.
  intros Hes cpi_series. unfold compute_daily_cpi, _load_prices_for_dates,
    _execute_clickhouse_query, execute.
  destruct (fault _ _ _); [discriminate |]. simpl.
  assert (Hnil : date_range s e = []).
  { unfold date_range. replace (Z.to_nat (e - s + 1)) with 0%nat by lia.
    reflexivity. }
  rewrite Hnil.
  assert (Hsel : Sql.select_prices (tbl_prices (clickhouse_client self)) [] = []).
  { unfold Sql.select_prices.
    induction (tbl_prices (clickhouse_client self)); [reflexivity | assumption]. }
  rewrite Hsel. discriminate.
Qed.

(** A call that returns had a successful query, a non-empty range and a
    price on every date. *)
Lemma returns_conditions (self : CPICalculator) (s e : date)
    (cpi_series : list (date * R)) :
  compute_daily_cpi self s e = Ok cpi_series ->
  fault (clickhouse_client self) _ (SelectPrices (date_range s e)) = None /\
  s <= e /\
  (forall d, s <= d <= e ->
             has_prices (tbl_prices (clickhouse_client self)) d = true).
Proof.
  intros Hok. repeat split.
  - destruct (fault _ _ _) as [x |] eqn:Hf; [| reflexivity].
    unfold compute_daily_cpi, _load_prices_for_dates,
      _execute_clickhouse_query, execute in Hok.
    rewrite Hf in Hok. discriminate.
  - destruct (Z_le_gt_dec s e) as [H | H]; [assumption |].
    elim (compute_daily_cpi_empty_range self s e ltac:(lia) cpi_series Hok).
  - intros d Hd. exact (returns_has_prices self s e d cpi_series Hok Hd).
Qed.

(** The call returns a series exactly when its query does not raise, the
    range is not empty and every date of the range has a non-null price of
    some product. *)
Theorem daily_returns_iff (self : CPICalculator) (s e : date) :
  (exists cpi_series, compute_daily_cpi self s e = Ok cpi_series) <->
  fault (clickhouse_client self) _ (SelectPrices (date_range s e)) = None /\
  s <= e /\
  (forall d, s <= d <= e ->
             has_prices (tbl_prices (clickhouse_client self)) d = true).
Proof.
  split.
  - intros [cpi_series Hok]. exact (returns_conditions self s e cpi_series Hok).
  - intros [Hf [Hse Hcov]]. eexists. now apply compute_daily_cpi_ok.
Qed.

(** A series returned has one value per date of the range, in date order. *)
Theorem daily_series_dates (self : CPICalculator) (s e : date)
    (cpi_series : list (date * R)) :
  compute_daily_cpi self s e = Ok cpi_series ->
  map fst cpi_series = date_range s e /\
  length cpi_series = Z.to_nat (e - s + 1) /\
  StronglySorted Z.lt (map fst cpi_series).
Proof.
  intros Hok.
  destruct (returns_conditions self s e _ Hok) as [Hf [Hse Hcov]].
  rewrite compute_daily_cpi_ok in Hok by assumption.
  injection Hok as <-.
  assert (Hd : map fst (map (fun d => (d, round4 (cpi_value self s e d)))
                            (date_range s e)) = date_range s e).
  { rewrite map_map. simpl. apply map_id. }
  rewrite Hd. repeat split.
  - rewrite length_map. unfold date_range. now rewrite length_map, length_seq.
  - clear. unfold date_range.
    generalize (Z.to_nat (e - s + 1)) as n. intros n. revert s.
    induction n as [| n IH]; intros s; [constructor |].
    rewrite <- cons_seq. simpl. constructor.
    + rewrite <- seq_shift, map_map.
      replace (map (fun x => s + Z.of_nat (S x)) (seq 0 n))
        with (map (fun i => (s + 1) + Z.of_nat i) (seq 0 n))
        by (apply map_ext; intros; lia).
      apply IH.
    + apply Forall_forall. intros y Hy. apply in_map_iff in Hy.
      destruct Hy as [i [<- Hi]]. apply in_seq in Hi. lia.
Qed.

Lemma daily_series_dates_witness :
  map fst (map (fun d => (d, round4 (cpi_value scenario 0 1 d))) (date_range 0 1)) =
    date_range 0 1 /\
  length (map (fun d => (d, round4 (cpi_value scenario 0 1 d))) (date_range 0 1)) =
    Z.to_nat (1 - 0 + 1) /\
  StronglySorted Z.lt
    (map fst (map (fun d => (d, round4 (cpi_value scenario 0 1 d)))
                  (date_range 0 1))).
Proof.
  apply (daily_series_dates scenario 0 1).
  apply compute_daily_cpi_ok; [reflexivity | lia | exact scenario_has_prices].
Defined.

(** ** Rounding of the series *)

Lemma Rabs_le_bounds (a b : R) : (Rabs a <= b)%R -> (- b <= a <= b)%R.
Proof. unfold Rabs. destruct (Rcase_abs a); lra. Qed.

Lemma rint_near (x : R) : (Rabs (IZR (rint x) - x) <= 1 / 2)%R.
Proof.
  unfold rint. destruct (base_Int_part x) as [Hlo Hhi].
  set (f := Int_part x) in *.
  destruct (Rlt_dec (x - IZR f) (1 / 2)) as [H1 | H1].
  - apply Rabs_le. lra.
  - destruct (Rlt_dec (1 / 2) (x - IZR f)) as [H2 | H2].
    + rewrite plus_IZR. apply Rabs_le. lra.
    + destruct (Z.even f); [| rewrite plus_IZR]; apply Rabs_le; lra.
Qed.

Lemma rint_nonneg (x : R) : (0 <= x)%R -> 0 <= rint x.
Proof.
  intros Hx. pose proof (rint_near x) as H. apply Rabs_le_bounds in H.
  apply le_IZR. apply IZR_le.
  assert (Hgt : (-1 < IZR (rint x))%R) by lra.
  apply lt_IZR in Hgt. lia.
Qed.

(** [round(4)] gives a multiple of 0.0001 within 0.00005 of its argument. *)
Lemma round4_near (x : R) :
  (round4 x * 10000 = IZR (rint (x * 10000)))%R /\
  (Rabs (round4 x - x) <= 1 / 20000)%R.
Proof.
  unfold round4. split; [lra |].
  pose proof (rint_near (x * 10000)) as H. apply Rabs_le_bounds in H.
  apply Rabs_le. lra.
Qed.

(** Every value of a returned series is a multiple of 0.0001 that lies
    within 0.00005 of the weighted sum computed for its date. *)
Theorem daily_series_rounded (self : CPICalculator) (s e : date)
    (cpi_series : list (date * R)) (d : date) (v : R) :
  compute_daily_cpi self s e = Ok cpi_series ->
  In (d, v) cpi_series ->
  s <= d <= e /\
  (exists k : Z, (v * 10000 = IZR k)%R) /\
  (Rabs (v - cpi_formula (leaf_categories (categories self))
                         (valid_rows self s e d)) <= 1 / 20000)%R.
Proof.
  intros Hok Hin.
  destruct (returns_conditions self s e _ Hok) as [Hf [Hse Hcov]].
  rewrite compute_daily_cpi_ok in Hok by assumption.
  injection Hok as <-. apply in_map_iff in Hin.
  destruct Hin as [d' [[= -> <-] Hd]]. apply In_date_range in Hd.
  split; [assumption |]. rewrite <- cpi_value_formula.
  destruct (round4_near (cpi_value self s e d)) as [Hk Hn].
  split; [eexists; exact Hk | exact Hn].
Qed.

Lemma daily_series_rounded_witness :
  0 <= 1 <= 1 /\
  (exists k : Z,
     (round4 (cpi_value scenario 0%Z 1%Z 1%Z) * 10000 = IZR k)%R) /\
  (Rabs (round4 (cpi_value scenario 0%Z 1%Z 1%Z) -
         cpi_formula (leaf_categories (categories scenario))
                     (valid_rows scenario 0%Z 1%Z 1%Z)) <= 1 / 20000)%R.
Proof.
  apply (daily_series_rounded scenario 0 1
           (map (fun d => (d, round4 (cpi_value scenario 0 1 d)))
                (date_range 0 1))).
  - apply compute_daily_cpi_ok; [reflexivity | lia | exact scenario_has_prices].
  - right; left; reflexivity.
Defined.

(** ** Sign of the values *)

Lemma nansum_nonneg (l : list float) :
  (forall x, In (Some x) l -> (0 <= x)%R) -> (0 <= nansum l)%R.
Proof.
  induction l as [| [r |] t IH]; intros H; simpl.
  - lra.
  - assert (0 <= r)%R by (apply H; now left).
    assert (0 <= nansum t)%R by (apply IH; intros; apply H; now right). lra.
  - apply IH. intros; apply H; now right.
Qed.

Lemma np_exp_nonneg (x : f64) (r : R) : np_exp x = Some r -> (0 <= r)%R.
Proof.
  destruct x as [y | |]; simpl; intros [= <-].
  - left. apply exp_pos.
  - lra.
Qed.

Lemma cpi_formula_nonneg (leaves : list category) (valid : list daily_row) :
  (forall lc, In lc leaves -> (0 <= weight lc)%R) ->
  (0 <= cpi_formula leaves valid)%R.
Proof.
  intros Hw. unfold cpi_formula. apply nansum_nonneg.
  intros x Hx. apply in_map_iff in Hx. destruct Hx as [lc [Hx Hlc]].
  apply filter_In in Hlc. destruct Hlc as [Hlc _].
  destruct (np_exp _) as [r |] eqn:Hr; [| discriminate].
  simpl in Hx. injection Hx as <-.
  apply np_exp_nonneg in Hr. specialize (Hw lc Hlc).
  now apply Rmult_le_pos.
Qed.

(** With non-negative leaf weights no value of the series is negative,
    whatever the prices are. *)
Theorem daily_series_nonneg (self : CPICalculator) (s e : date)
    (cpi_series : list (date * R)) :
  compute_daily_cpi self s e = Ok cpi_series ->
  (forall lc, In lc (leaf_categories (categories self)) -> (0 <= weight lc)%R) ->
  forall d v, In (d, v) cpi_series -> (0 <= v)%R.
Proof.
  intros Hok Hw d v Hin.
  destruct (returns_conditions self s e _ Hok) as [Hf [Hse Hcov]].
  rewrite compute_daily_cpi_ok in Hok by assumption.
  injection Hok as <-. apply in_map_iff in Hin.
  destruct Hin as [d' [[= -> <-] _]].
  unfold round4. apply Rmult_le_pos; [| lra].
  apply IZR_le, rint_nonneg.
  rewrite cpi_value_formula.
  apply Rmult_le_pos; [now apply cpi_formula_nonneg | lra].
Qed.

Lemma daily_series_nonneg_witness :
  (0 <= round4 (cpi_value scenario 0%Z 1%Z 1%Z))%R.
Proof.
  apply (daily_series_nonneg scenario 0 1
           (map (fun d => (d, round4 (cpi_value scenario 0 1 d)))
                (date_range 0 1))
           ltac:(apply compute_daily_cpi_ok;
                 [reflexivity | lia | exact scenario_has_prices])
           ltac:(change (leaf_categories (categories scenario))
                   with scenario_categories;
                 intros lc [<- | [<- | []]]; simpl; lra)
           1).
  right; left; reflexivity.
Defined.

(** ** Which products take part *)

Lemma valid_row_origin (self : CPICalculator) (s e T : date) (r : daily_row) :
  In r (valid_rows self s e T) ->
  exists p lc,
    In p (products self) /\ In lc (leaf_categories (categories self)) /\
    product_category p = category_id lc /\
    m_category_id (d_merged r) = category_id lc.
Proof.
  intros Hv. apply valid_rows_spec in Hv. destruct Hv as [Hd _].
  apply In_daily_rows in Hd. destruct Hd as [Hm _].
  apply In_merged_rows in Hm. destruct Hm as [p [lc [Hp [_ [Hlc [Hk Hm]]]]]].
  exists p, lc. rewrite Hm. simpl. repeat split; auto.
Qed.

(** Every surviving row comes from a row of [products] whose category is a
    leaf category: unknown products, products of inner categories and
    products of categories absent from [categories] never take part. *)
Theorem valid_rows_products_of_leaves (self : CPICalculator) (s e T : date)
    (r : daily_row) :
  In r (valid_rows self s e T) ->
  exists p lc,
    In p (products self) /\
    In lc (leaf_categories (categories self)) /\
    product_category p = category_id lc /\
    m_product_id (d_merged r) = product_id p /\
    m_category_id (d_merged r) = category_id lc /\
    m_weight (d_merged r) = weight lc.
Proof.
  intros Hv. apply valid_rows_spec in Hv. destruct Hv as [Hd _].
  apply In_daily_rows in Hd. destruct Hd as [Hm _].
  apply In_merged_rows in Hm. destruct Hm as [p [lc [Hp [_ [Hlc [Hk Hm]]]]]].
  exists p, lc. rewrite Hm. simpl. repeat split; auto.
Qed.

Lemma valid_rows_products_of_leaves_witness :
  exists p lc,
    In p (products scenario) /\
    In lc (leaf_categories (categories scenario)) /\
    product_category p = category_id lc /\
    101 = product_id p /\ 1 = category_id lc /\ (6 / 10)%R = weight lc.
Proof.
  apply (valid_rows_products_of_leaves scenario 0 1 1
           (mkDaily (mkMerged 101 1 (Some 10%R) (6 / 10)) (Some 11%R))).
  apply valid_rows_spec. split; [left; reflexivity |].
  exists 11%R, 10%R. simpl. repeat split; lra.
Defined.

(** With no surviving row the value of a date is 0.0, neither NaN nor an
    exception. *)
Lemma cpi_formula_no_row (leaves : list category) :
  cpi_formula leaves [] = 0%R.
Proof.
  unfold cpi_formula. induction leaves as [| lc t IH]; [reflexivity | assumption].
Qed.

Lemma round4_zero : round4 0 = 0%R.
Proof. apply (round4_exact 0). lra. Qed.

(** When no row of [products] belongs to a leaf category (an empty
    [products] or [categories] table in particular), a call that returns
    gives 0.0 on every date. *)
Theorem daily_series_zero_without_products (self : CPICalculator) (s e : date)
    (cpi_series : list (date * R)) :
  compute_daily_cpi self s e = Ok cpi_series ->
  (forall p lc, In p (products self) ->
                In lc (leaf_categories (categories self)) ->
                product_category p <> category_id lc) ->
  cpi_series = map (fun d => (d, 0%R)) (date_range s e).
Proof.
  intros Hok Hnone.
  destruct (returns_conditions self s e _ Hok) as [Hf [Hse Hcov]].
  rewrite compute_daily_cpi_ok in Hok by assumption.
  injection Hok as <-. apply map_ext. intros d.
  rewrite cpi_value_formula.
  assert (Hnil : valid_rows self s e d = []).
  { destruct (valid_rows self s e d) as [| r t] eqn:Hv; [reflexivity |].
    assert (Hin : In r (valid_rows self s e d)) by (rewrite Hv; now left).
    apply valid_row_origin in Hin.
    destruct Hin as [p [lc [Hp [Hlc [Hk _]]]]].
    elim (Hnone p lc Hp Hlc Hk). }
  now rewrite Hnil, cpi_formula_no_row, round4_zero.
Qed.

Lemma daily_series_zero_without_products_witness :
  map (fun d => (d, round4 (cpi_value no_products 0 1 d))) (date_range 0 1) =
  map (fun d => (d, 0%R)) (date_range 0 1).
Proof.
  apply (daily_series_zero_without_products no_products 0 1).
  - apply compute_daily_cpi_ok; [reflexivity | lia | exact scenario_has_prices].
  - intros p lc [].
Defined.

(** ** Forward fill over the whole range *)

Lemma cell_ffill_carried (f : date -> float) (l : list date) (T : date) :
  forall last, last <> None -> In T l ->
  cell l (ffill_from last (map f l)) T <> None.
Proof.
  induction l as [| c cs IH]; intros last Hlast HT; [contradiction |].
  simpl.
  assert (Hv : match f c with Some _ => f c | None => last end <> None)
    by (destruct (f c); [discriminate | assumption]).
  destruct (c =? T) eqn:He; [assumption |].
  apply IH; [assumption |].
  destruct HT as [-> | HT]; [| assumption].
  rewrite Z.eqb_refl in He. discriminate.
Qed.

(** In a sorted axis, a row with a value under column [d] has a value
    under every later column. *)
Lemma cell_ffill_after (f : date -> float) (cols : list date) (d T : date)
    (v : R) :
  StronglySorted Z.lt cols -> In d cols -> In T cols -> d <= T ->
  f d = Some v ->
  forall last, cell cols (ffill_from last (map f cols)) T <> None.
Proof.
  induction 1 as [| c cs Hs IH Hall]; intros Hd HT Hle Hv last; [contradiction |].
  rewrite Forall_forall in Hall. simpl.
  destruct (c =? T) eqn:He.
  - apply Z.eqb_eq in He. subst c.
    destruct Hd as [<- | Hd].
    + rewrite Hv. discriminate.
    + specialize (Hall d Hd). lia.
  - apply Z.eqb_neq in He.
    destruct HT as [HT | HT]; [contradiction |].
    destruct Hd as [<- | Hd].
    + rewrite Hv. apply cell_ffill_carried; [discriminate | assumption].
    + now apply IH.
Qed.

Lemma filled_after_observed (self : CPICalculator) (s e d T : date)
    (p : Z) (v : R) :
  s <= d -> d <= T -> T <= e ->
  has_prices (tbl_prices (clickhouse_client self)) T = true ->
  first_price (tbl_prices (clickhouse_client self)) p d = Some v ->
  In p (index (pivot_table (fetched self s e))) /\
  filled (fetched self s e) p T <> None.
Proof.
  intros Hsd HdT HTe Hcol Hv. split.
  - apply In_index_pivot_table.
    apply first_price_Some in Hv. destruct Hv as [r [Hin [Hp [Hd Hr]]]].
    exists r. repeat split; [| congruence | assumption].
    apply In_fetched. split; [assumption | lia].
  - unfold filled. apply (cell_ffill_after _ _ d T v).
    + apply sort_uniq_sorted.
    + apply In_columns_fetched. split; [lia |].
      eapply first_price_has_prices; eassumption.
    + apply In_columns_fetched. split; [lia | assumption].
    + assumption.
    + rewrite first_price_fetched by lia. assumption.
Qed.

(** Once a product has a price on a date of the range, it has a current
    price on every later date of the range that is a column of the pivot:
    the forward fill leaves no hole after the first observation. *)
Theorem current_price_persists (self : CPICalculator) (s e d T : date)
    (p : Z) (v : R) :
  s <= d -> d <= T -> T <= e ->
  has_prices (tbl_prices (clickhouse_client self)) T = true ->
  first_price (tbl_prices (clickhouse_client self)) p d = Some v ->
  exists c,
    In (p, Some c) (column_of (price_pivot (fetched self s e)) T) /\
    forall x, In (p, x) (column_of (price_pivot (fetched self s e)) T) ->
              x = Some c.
Proof.
  intros Hsd HdT HTe Hcol Hv.
  destruct (filled_after_observed self s e d T p v Hsd HdT HTe Hcol Hv)
    as [Hidx Hfill].
  destruct (filled (fetched self s e) p T) as [c |] eqn:Hc; [| congruence].
  exists c. split.
  - apply In_column_of_price_pivot. split; [assumption | now rewrite Hc].
  - intros x Hx. apply In_column_of_price_pivot in Hx.
    destruct Hx as [_ ->]. exact Hc.
Qed.

Lemma current_price_persists_witness :
  exists c,
    In (101, Some c)
       (column_of (price_pivot (fetched (calculator_on gap_prices) 0 3)) 2) /\
    forall x,
      In (101, x)
         (column_of (price_pivot (fetched (calculator_on gap_prices) 0 3)) 2) ->
      x = Some c.
Proof.
  apply (current_price_persists (calculator_on gap_prices) 0 3 0 2 101 10%R);
    try lia; reflexivity.
Defined.

Lemma positive_base_row (self : CPICalculator) (s e T : date)
    (lc : category) (p : product) :
  s <= T <= e ->
  has_prices (tbl_prices (clickhouse_client self)) T = true ->
  In lc (leaf_categories (categories self)) ->
  In p (products self) ->
  product_category p = category_id lc ->
  gt0 (first_price (tbl_prices (clickhouse_client self)) (product_id p) s) = true ->
  exists r, In r (valid_rows self s e T) /\
            m_product_id (d_merged r) = product_id p /\
            in_category lc r = true.
Proof.
  intros HT Hcol Hlc Hp Hcat Hpos.
  apply gt0_spec in Hpos. destruct Hpos as [b [Hb Hb0]].
  destruct (filled_after_observed self s e s T (product_id p) b)
    as [Hidx Hc]; try lia; try assumption.
  destruct (filled (fetched self s e) (product_id p) T) as [c |] eqn:Hfc;
    [| congruence].
  pose (m := mkMerged (product_id p) (product_category p)
                      (filled (fetched self s e) (product_id p) s) (weight lc)).
  assert (Hfill : filled (fetched self s e) (product_id p) s = Some b)
    by (rewrite filled_start; [assumption | lia]).
  exists (mkDaily m (Some c)). repeat split.
  - apply valid_rows_spec. split.
    + apply In_daily_rows. simpl. split; [| now rewrite Hfc].
      apply In_merged_rows. exists p, lc. repeat split; auto.
    + exists c, b. simpl. auto.
  - unfold in_category. simpl. now apply Z.eqb_eq.
Qed.

(** A product of a leaf category with a positive price on the start date
    has a surviving row on every date of the range that has a column: the
    leaf categories that take part on the start date take part throughout. *)
Theorem positive_base_survives (self : CPICalculator) (s e T : date)
    (lc : category) (p : product) :
  s <= T <= e ->
  has_prices (tbl_prices (clickhouse_client self)) T = true ->
  In lc (leaf_categories (categories self)) ->
  In p (products self) ->
  product_category p = category_id lc ->
  gt0 (first_price (tbl_prices (clickhouse_client self)) (product_id p) s) = true ->
  (exists r, In r (valid_rows self s e T) /\
             m_product_id (d_merged r) = product_id p /\
             in_category lc r = true) /\
  existsb (in_category lc) (valid_rows self s e T) = true.
Proof.
  intros HT Hcol Hlc Hp Hcat Hpos.
  destruct (positive_base_row self s e T lc p HT Hcol Hlc Hp Hcat Hpos)
    as [r [Hr [Hid Hc]]].
  split; [exists r; auto |].
  apply existsb_exists. exists r. auto.
Qed.

Lemma positive_base_survives_witness :
  (exists r, In r (valid_rows (calculator_on gap_prices) 0 3 2) /\
             m_product_id (d_merged r) = product_id (mkProduct 101 1) /\
             in_category (mkCategory 1 (Some (-1)) (6 / 10)) r = true) /\
  existsb (in_category (mkCategory 1 (Some (-1)) (6 / 10)))
          (valid_rows (calculator_on gap_prices) 0 3 2) = true.
Proof.
  apply (positive_base_survives (calculator_on gap_prices) 0 3 2).
  - lia.
  - reflexivity.
  - left; reflexivity.
  - left; reflexivity.
  - reflexivity.
  - simpl. apply Rgtb_true. lra.
Defined.

(** ** Uniform price movements *)

Lemma Rsum_scale {A} (c : R) (f : A -> R) (l : list A) :
  Rsum (map (fun a => c * f a)%R l) = (c * Rsum (map f l))%R.
Proof.
  induction l as [| a t IH]; simpl; [lra | rewrite IH; lra].
Qed.

Lemma Rsum_const {A} (x : R) (l : list A) :
  Rsum (map (fun _ => x) l) = (INR (length l) * x)%R.
Proof.
  induction l as [| a t IH]; [simpl; lra |].
  change (length (a :: t)) with (S (length t)).
  rewrite S_INR. simpl. rewrite IH. lra.
Qed.

(** When every surviving row has the same log ratio [x], the formula is
    [exp x] times the weight of the leaf categories that take part. *)
Lemma cpi_formula_constant_ratio (leaves : list category)
    (valid : list daily_row) (x : R) :
  (forall r, In r valid -> log_ratio r = Fin x) ->
  cpi_formula leaves valid =
  (exp x * Rsum (map weight
                     (filter (fun lc => existsb (in_category lc) valid) leaves)))%R.
Proof.
  intros Hlog. unfold cpi_formula.
  rewrite nansum_Rsum, map_map, <- Rsum_scale. f_equal.
  apply map_ext_in. intros lc Hlc. apply filter_In in Hlc.
  destruct Hlc as [_ Hex].
  set (g := filter (in_category lc) valid).
  assert (Hg : map log_ratio g = map Fin (map (fun _ => x) g)).
  { rewrite map_map. apply map_ext_in. intros r Hr.
    apply filter_In in Hr. apply Hlog. tauto. }
  assert (Hne : g <> []).
  { apply existsb_exists in Hex. destruct Hex as [r [Hr Hc]].
    intros Hnil. assert (Hin : In r g) by (apply filter_In; auto).
    rewrite Hnil in Hin. exact Hin. }
  rewrite Hg, nanmean_finite.
  - rewrite Rsum_const, length_map. simpl. f_equal. f_equal. field.
    apply not_0_INR. intros H0. apply Hne. now apply length_zero_iff_nil.
  - intros Hnil. apply Hne. apply map_eq_nil in Hnil. exact Hnil.
Qed.

(** On the start date the value before rounding is the total weight of the
    leaf categories that take part, and a leaf category takes part exactly
    when one of its products has a positive price on that date. *)
Theorem start_value_is_weight_taking_part (self : CPICalculator) (s e : date) :
  s <= e ->
  cpi_value self s e s =
  Rsum (map weight
            (filter (fun lc => existsb (in_category lc) (valid_rows self s e s))
                    (leaf_categories (categories self)))) /\
  (forall lc, In lc (leaf_categories (categories self)) ->
     (existsb (in_category lc) (valid_rows self s e s) = true <->
      exists p, In p (products self) /\
                product_category p = category_id lc /\
                gt0 (first_price (tbl_prices (clickhouse_client self))
                                 (product_id p) s) = true)).
Proof.
  intros Hse. split.
  - rewrite cpi_value_formula, (cpi_formula_constant_ratio _ _ 0).
    + rewrite exp_0. lra.
    + intros r. apply start_log_ratio.
  - intros lc Hlc. split.
    + intros Hex. apply existsb_exists in Hex. destruct Hex as [r [Hr Hc]].
      unfold in_category in Hc. apply Z.eqb_eq in Hc.
      apply valid_rows_spec in Hr. destruct Hr as [Hd [c [b [_ [Hb Hb0]]]]].
      apply In_daily_rows in Hd. destruct Hd as [Hm _].
      pose proof (merged_rows_base_price self s e _ Hm) as Hbase.
      apply In_merged_rows in Hm.
      destruct Hm as [p [lc' [Hp [_ [_ [_ Hm]]]]]].
      exists p. rewrite Hm in Hc, Hbase, Hb. simpl in Hc, Hbase, Hb.
      repeat split; [assumption | assumption |].
      rewrite <- Hbase, Hb. simpl. now apply Rgtb_true.
    + intros [p [Hp [Hcat Hpos]]].
      now apply (start_surviving_row self s e lc p).
Qed.

Lemma start_value_is_weight_taking_part_witness :
  cpi_value one_product 0 0 0 =
  Rsum (map weight
            (filter (fun lc => existsb (in_category lc)
                                       (valid_rows one_product 0 0 0))
                    (leaf_categories (categories one_product)))) /\
  (forall lc, In lc (leaf_categories (categories one_product)) ->
     (existsb (in_category lc) (valid_rows one_product 0 0 0) = true <->
      exists p, In p (products one_product) /\
                product_category p = category_id lc /\
                gt0 (first_price (tbl_prices (clickhouse_client one_product))
                                 (product_id p) 0) = true)).
Proof.
  apply (start_value_is_weight_taking_part one_product 0 0). lia.
Defined.

(** If on a date T every product with a positive base price costs [k]
    times that base price, the value of T before rounding is [k] times the
    weight of the leaf categories that take part; it is [k] itself when the
    leaf weights sum to 1 and every leaf category has a product with a
    positive base price. *)
Theorem uniform_increase (self : CPICalculator) (s e T : date) (k : R) :
  s <= T <= e ->
  (0 < k)%R ->
  (forall p b, In p (products self) ->
     first_price (tbl_prices (clickhouse_client self)) (product_id p) s = Some b ->
     (0 < b)%R ->
     first_price (tbl_prices (clickhouse_client self)) (product_id p) T =
       Some (k * b)%R) ->
  cpi_value self s e T =
    (k * Rsum (map weight
                 (filter (fun lc => existsb (in_category lc) (valid_rows self s e T))
                         (leaf_categories (categories self)))))%R /\
  (Rsum (map weight (leaf_categories (categories self))) = 1%R ->
   (forall lc, In lc (leaf_categories (categories self)) ->
      exists p, In p (products self) /\
                product_category p = category_id lc /\
                gt0 (first_price (tbl_prices (clickhouse_client self))
                                 (product_id p) s) = true) ->
   cpi_value self s e T = k).
Proof.
  intros HT Hk Hscaled.
  assert (Hlog : forall r, In r (valid_rows self s e T) -> log_ratio r = Fin (ln k)).
  { intros r Hr. apply valid_rows_spec in Hr.
    destruct Hr as [Hd [c [b [Hc [Hb Hb0]]]]].
    apply In_daily_rows in Hd. destruct Hd as [Hm Hcur].
    pose proof (merged_rows_base_price self s e _ Hm) as Hbase.
    apply In_merged_rows in Hm.
    destruct Hm as [p [lc [Hp [_ [_ [_ Hm]]]]]].
    rewrite Hm in Hcur, Hbase, Hb. simpl in Hcur, Hbase, Hb.
    rewrite Hb in Hbase. symmetry in Hbase.
    pose proof (Hscaled p b Hp Hbase Hb0) as HT'.
    rewrite (filled_observed self s e _ T _ HT HT') in Hcur.
    assert (c = (k * b)%R) by congruence. subst c.
    unfold log_ratio, price_ratio. rewrite Hc, Hm. simpl. rewrite Hb.
    replace (k * b / b)%R with k by (field; lra).
    now apply np_log_pos. }
  assert (Hval : cpi_value self s e T =
    (k * Rsum (map weight
                 (filter (fun lc => existsb (in_category lc) (valid_rows self s e T))
                         (leaf_categories (categories self)))))%R).
  { rewrite cpi_value_formula, (cpi_formula_constant_ratio _ _ (ln k) Hlog).
    now rewrite exp_ln. }
  split; [exact Hval |].
  intros Hsum Hleaf. rewrite Hval, filter_all, Hsum; [lra |].
  intros lc Hlc. destruct (Hleaf lc Hlc) as [p [Hp [Hcat Hpos]]].
  destruct (gt0_spec (first_price (tbl_prices (clickhouse_client self))
                                  (product_id p) s)) as [Hg _].
  destruct (Hg Hpos) as [b [Hb Hb0]].
  destruct (positive_base_row self s e T lc p) as [r [Hr [_ Hc]]];
    try assumption.
  - eapply first_price_has_prices. exact (Hscaled p b Hp Hb Hb0).
  - apply existsb_exists. eauto.
Qed.

Lemma uniform_increase_witness :
  cpi_value (calculator_on doubled_prices) 0 1 1 = 2%R.
Proof.
  apply (proj2 (uniform_increase (calculator_on doubled_prices) 0 1 1 2
                  ltac:(lia) ltac:(lra)
                  ltac:(intros p b [<- | [<- | []]]; simpl;
                        intros [= <-] _; f_equal; lra))).
  - change (leaf_categories (categories (calculator_on doubled_prices)))
      with scenario_categories.
    simpl. lra.
  - change (leaf_categories (categories (calculator_on doubled_prices)))
      with scenario_categories.
    intros lc [<- | [<- | []]].
    + exists (mkProduct 101 1). repeat split; [left; reflexivity |].
      simpl. apply Rgtb_true. lra.
    + exists (mkProduct 102 2). repeat split; [right; left; reflexivity |].
      simpl. apply Rgtb_true. lra.
Defined.

(** ** Rows that have no influence *)

Lemma select_prices_in_range (t : list price_row) (s e : date) :
  Sql.select_prices t (date_range s e) = filter (in_range s e) t.
Proof.
  unfold Sql.select_prices. apply filter_ext. intros r.
  apply eq_true_iff_eq. unfold in_range.
  rewrite isin_In, In_date_range, andb_true_iff, !Z.leb_le. reflexivity.
Qed.

(** A row dated outside [start, end], placed anywhere in a table, leaves
    the rows dated within the range as they were. *)
Lemma filter_in_range_insert (s e : date) (r : price_row)
    (l1 l2 : list price_row) :
  price_date r < s \/ e < price_date r ->
  filter (in_range s e) (l1 ++ r :: l2) = filter (in_range s e) (l1 ++ l2).
Proof.
  intros Hout. rewrite !filter_app. f_equal. simpl.
  replace (in_range s e r) with false; [reflexivity |].
  symmetry. unfold in_range. apply andb_false_iff.
  rewrite !Z.leb_gt. lia.
Qed.

(** Two tables of prices that have the same rows dated within [start, end],
    in the same order, give the same outcome of [compute_daily_cpi]: rows
    dated before [start] or after [end], wherever they stand in the table,
    are never read. *)
Theorem daily_ignores_rows_outside_range (self : CPICalculator) (s e : date)
    (prices' : list price_row) :
  filter (in_range s e) prices' =
  filter (in_range s e) (tbl_prices (clickhouse_client self)) ->
  compute_daily_cpi (with_prices prices' self) s e = compute_daily_cpi self s e.
Proof.
  intros Hsame.
  unfold compute_daily_cpi, _load_prices_for_dates, _execute_clickhouse_query,
    execute, with_prices. simpl.
  destruct (fault _ _ _); [reflexivity |]. simpl.
  now rewrite !select_prices_in_range, Hsame.
Qed.

Lemma daily_ignores_rows_outside_range_witness :
  compute_daily_cpi (with_prices interleaved_prices scenario) 0 1 =
  compute_daily_cpi scenario 0 1.
Proof.
  apply (daily_ignores_rows_outside_range scenario 0 1 interleaved_prices).
  reflexivity.
Defined.

(** ** Several rows for one product and date *)




(** ** Bounds from the price relatives *)

Lemma Rsum_bounds {A} (f : A -> R) (l : list A) (a b : R) :
  (forall x, In x l -> (a <= f x <= b)%R) ->
  (INR (length l) * a <= Rsum (map f l) <= INR (length l) * b)%R.
Proof.
  induction l as [| x t IH]; intros H.
  - simpl. lra.
  - change (length (x :: t)) with (S (length t)). rewrite S_INR. simpl.
    specialize (H x (or_introl eq_refl)) as Hx.
    assert (Ht : (INR (length t) * a <= Rsum (map f t) <= INR (length t) * b)%R)
      by (apply IH; intros; apply H; now right).
    lra.
Qed.

(** A geometric mean lies between the smallest and the largest relative. *)
Lemma geometric_mean_index_bounds (rows : list daily_row) (lo hi : R) :
  rows <> [] -> (0 < lo)%R ->
  (forall r, In r rows -> (lo <= price_relative r <= hi)%R) ->
  (lo <= geometric_mean_index rows <= hi)%R.
Proof.
  intros Hne Hlo Hall. unfold geometric_mean_index.
  assert (Hn : (0 < INR (length rows))%R).
  { apply lt_0_INR. destruct rows; [congruence | simpl; lia]. }
  assert (Hhi : (0 < hi)%R).
  { destruct rows as [| r t]; [congruence |].
    specialize (Hall r (or_introl eq_refl)). lra. }
  assert (Hln : forall r, In r rows ->
            (ln lo <= ln (price_relative r) <= ln hi)%R).
  { intros r Hr. specialize (Hall r Hr). split.
    - destruct (Req_dec lo (price_relative r)) as [<- | Hneq]; [lra |].
      left. apply ln_increasing; lra.
    - destruct (Req_dec (price_relative r) hi) as [-> | Hneq]; [lra |].
      left. apply ln_increasing; lra. }
  pose proof (Rsum_bounds (fun r => ln (price_relative r)) rows _ _ Hln) as Hs.
  set (m := (Rsum (map (fun r => ln (price_relative r)) rows)
             / INR (length rows))%R).
  assert (Hm : (ln lo <= m <= ln hi)%R).
  { unfold m. split.
    - apply Rmult_le_reg_r with (INR (length rows)); [assumption |].
      unfold Rdiv. rewrite Rmult_assoc, Rinv_l by lra. lra.
    - apply Rmult_le_reg_r with (INR (length rows)); [assumption |].
      unfold Rdiv. rewrite Rmult_assoc, Rinv_l by lra. lra. }
  split.
  - apply Rle_trans with (exp (ln lo)); [rewrite exp_ln by assumption; lra |].
    destruct (Req_dec (ln lo) m) as [<- | Hneq]; [lra |].
    left. apply exp_increasing. lra.
  - apply Rle_trans with (exp (ln hi)); [| rewrite exp_ln by assumption; lra].
    destruct (Req_dec m (ln hi)) as [-> | Hneq]; [lra |].
    left. apply exp_increasing. lra.
Qed.

(** With non-negative leaf weights, when the price relatives of the rows
    surviving on T all lie between [lo > 0] and [hi], the value of T before
    rounding lies between [lo] and [hi] times the weight of the leaf
    categories that take part. *)
Theorem cpi_between_extreme_relatives (self : CPICalculator) (s e T : date)
    (lo hi : R) :
  (0 < lo)%R ->
  (forall lc, In lc (leaf_categories (categories self)) -> (0 <= weight lc)%R) ->
  (forall r, In r (valid_rows self s e T) ->
     exists c b, current_price r = Some c /\ base_price (d_merged r) = Some b /\
                 (lo <= c / b <= hi)%R) ->
  (lo * Rsum (map weight
                (filter (fun lc => existsb (in_category lc) (valid_rows self s e T))
                        (leaf_categories (categories self))))
   <= cpi_value self s e T
   <= hi * Rsum (map weight
                (filter (fun lc => existsb (in_category lc) (valid_rows self s e T))
                        (leaf_categories (categories self)))))%R.
Proof.
  intros Hlo Hw Hrel.
  rewrite cpi_value_formula, cpi_formula_positive_prices.
  2:{ intros r Hr. destruct (Hrel r Hr) as [c [b [Hc [Hb Hcb]]]].
      apply valid_rows_spec in Hr. destruct Hr as [_ [c' [b' [_ [Hb' Hb0]]]]].
      assert (b' = b) by congruence. subst b'.
      exists c, b. repeat split; auto.
      replace c with (c / b * b)%R by (field; lra).
      apply Rmult_lt_0_compat; lra. }
  unfold cpi_real_formula.
  set (valid := valid_rows self s e T) in *.
  assert (Hterm : forall lc,
            In lc (filter (fun lc => existsb (in_category lc) valid)
                          (leaf_categories (categories self))) ->
            (lo * weight lc <=
             geometric_mean_index (filter (in_category lc) valid) * weight lc <=
             hi * weight lc)%R).
  { intros lc Hlc. apply filter_In in Hlc. destruct Hlc as [Hlc Hex].
    specialize (Hw lc Hlc).
    destruct (geometric_mean_index_bounds (filter (in_category lc) valid) lo hi)
      as [H1 H2]; try assumption.
    - apply existsb_exists in Hex. destruct Hex as [r [Hr Hc]].
      intros Hnil. assert (Hin : In r (filter (in_category lc) valid))
        by (apply filter_In; auto).
      rewrite Hnil in Hin. exact Hin.
    - intros r Hr. apply filter_In in Hr. destruct Hr as [Hr _].
      destruct (Hrel r Hr) as [c [b [Hc [Hb Hcb]]]].
      unfold price_relative. rewrite Hc, Hb. exact Hcb.
    - split; apply Rmult_le_compat_r; assumption. }
  induction (filter (fun lc => existsb (in_category lc) valid)
                    (leaf_categories (categories self))) as [| lc t IH].
  - simpl. lra.
  - simpl. specialize (Hterm lc (or_introl eq_refl)) as Hlc.
    assert (Ht : (lo * Rsum (map weight t) <=
                  Rsum (map (fun lc0 =>
                     geometric_mean_index (filter (in_category lc0) valid)
                     * weight lc0)%R t) <=
                  hi * Rsum (map weight t))%R)
      by (apply IH; intros; apply Hterm; now right).
    lra.
Qed.

Lemma cpi_between_extreme_relatives_witness :
  (1 * Rsum (map weight
               (filter (fun lc => existsb (in_category lc)
                                          (valid_rows scenario 0%Z 1%Z 1%Z))
                       (leaf_categories (categories scenario))))
   <= cpi_value scenario 0%Z 1%Z 1%Z
   <= (11 / 10) *
      Rsum (map weight
               (filter (fun lc => existsb (in_category lc)
                                          (valid_rows scenario 0%Z 1%Z 1%Z))
                       (leaf_categories (categories scenario)))))%R.
Proof.
  apply (cpi_between_extreme_relatives scenario 0 1 1).
  - lra.
  - change (leaf_categories (categories scenario)) with scenario_categories.
    intros lc [<- | [<- | []]]; simpl; lra.
  - intros r Hr. apply valid_rows_spec in Hr. destruct Hr as [Hr _].
    destruct Hr as [<- | [<- | []]]; simpl.
    + exists 11%R, 10%R. repeat split; lra.
    + exists 20%R, 20%R. repeat split; lra.
Defined.
